(** * Cruise control simulation: a shallow embedding of
      [cruise_control_simulation.py] and the properties of its engine.

    Numbers.  The Python program computes with binary64 floats, partly
    Python's own and partly NumPy scalars.  The file holds two embeddings of
    the same source.

    The first takes every number as an exact rational ([Q]), the "real" of
    the prose specification.  It serves the properties that are about the
    formulas and the data flow of the code: which expression a method
    returns, which attributes it writes, in which order the loop wires the
    blocks, which rows of the arrays are written.  There a division whose
    divisor is zero stops with [ZeroDivisionError].

    The second ([Module B64]) computes as the program does, with the
    kernel's IEEE 754 binary64 floats: rounding, overflow, infinities and nan
    are in the model, as are the two kinds of numbers and the way
    [np.arange] and [np.clip] treat them.  It serves every property that
    rests on the order or the algebra of the numbers: the bounds of the
    command, the rollback of the integral, the number of grid points, the
    configurations that stop a run, the metrics of [performance_analysis].

    State.  The methods of [CruiseControlSystem] read and write attributes of
    [self]; they are modelled with explicit state passing: a method takes the
    object and returns an [outcome] holding the object as the method left it,
    together with the returned value or the exception raised. *)

From Stdlib Require Import QArith Qround Qabs ZArith List Bool Lia Lqa.
From Stdlib Require Import Floats Uint63.
Import ListNotations.

Local Open Scope Q_scope.

(** ** Outcomes of a method call *)

Inductive exn : Type :=
| ZeroDivisionError
| IndexError.

(** [Ok self a]: the call returned [a] and left the object as [self];
    [Raise self e]: the call raised [e], the object being [self] by then. *)
Inductive outcome (S A : Type) : Type :=
| Ok (self : S) (a : A)
| Raise (self : S) (e : exn).

Arguments Ok {S A} self a.
Arguments Raise {S A} self e.

Definition bind {S A B : Type} (c : outcome S A) (k : S -> A -> outcome S B)
  : outcome S B :=
  match c with
  | Ok self a => k self a
  | Raise self e => Raise self e
  end.

Notation "'call' ( s , x ) <- c ;; k" :=
  (bind c (fun s x => k))
  (at level 10, s name, x name, c at level 100, k at level 200,
   format "'[v' 'call'  ( s ,  x )  <-  c  ;;  '/' k ']'").

(** Python's [x / y] on numbers: no value when [y] is zero. *)
Definition py_div (x y : Q) : option Q :=
  if Qeq_bool y 0 then None else Some (x / y).

(** ** NumPy helpers *)

(** [np.maximum] and [np.minimum] on scalars. *)
Definition np_maximum (x y : Q) : Q := if Qle_bool y x then x else y.
Definition np_minimum (x y : Q) : Q := if Qle_bool x y then x else y.

(** [np.clip(a, a_min, a_max)] is [minimum(a_max, maximum(a, a_min))]. *)
Definition np_clip (a a_min a_max : Q) : Q :=
  np_minimum (np_maximum a a_min) a_max.

(** [np.arange(start, stop, step)]: [ceil((stop - start) / step)] values
    [start + i * step] (none when that count is not positive); a zero step
    raises. *)
Definition arange_len (start stop step : Q) : nat :=
  Z.to_nat (Qceiling ((stop - start) / step)).

Definition np_arange (start stop step : Q) : option (list Q) :=
  if Qeq_bool step 0 then None
  else Some (map (fun i : nat => start + inject_Z (Z.of_nat i) * step)
                 (seq 0 (arange_len start stop step))).

(** [np.zeros(n)]. *)
Definition np_zeros (n : nat) : list Q := repeat 0 n.

(** [a[i] = v] on an array: out of range raises [IndexError]. *)
Fixpoint setitem (a : list Q) (i : nat) (v : Q) : option (list Q) :=
  match a, i with
  | [], _ => None
  | _ :: tl, O => Some (v :: tl)
  | x :: tl, S j =>
      match setitem tl j v with
      | Some tl' => Some (x :: tl')
      | None => None
      end
  end.

(** [enumerate(xs)], counting from [k]. *)
Fixpoint enumerate_from {A : Type} (k : nat) (xs : list A) : list (nat * A) :=
  match xs with
  | [] => []
  | x :: tl => (k, x) :: enumerate_from (S k) tl
  end.

Definition enumerate {A : Type} (xs : list A) : list (nat * A) :=
  enumerate_from 0 xs.

(** ** The object *)

(** The attributes of a [CruiseControlSystem] that the engine uses (the
    transfer-function objects built by [create_transfer_functions] are only
    read by analysis code and are left out). *)
Record CruiseControlSystem : Type := mkSystem {
  m : Q;
  b : Q;
  Kv : Q;
  tau_engine : Q;
  v_desired : Q;
  Kp : Q;
  Ki : Q;
  Kd : Q;
  throttle_max : Q;
  throttle_min : Q;
  dt : Q;
  T_sim : Q;
  v_current : Q;
  throttle : Q;
  error_integral : Q;
  error_prev : Q;
  engine_state : Q;
  vehicle_state : Q
}.

(** Attribute assignments [self.x = v]. *)
Definition set_v_current (self : CruiseControlSystem) (v : Q) :=
  mkSystem (m self) (b self) (Kv self) (tau_engine self) (v_desired self)
    (Kp self) (Ki self) (Kd self) (throttle_max self) (throttle_min self)
    (dt self) (T_sim self)
    v (throttle self) (error_integral self) (error_prev self)
    (engine_state self) (vehicle_state self).

Definition set_error_integral (self : CruiseControlSystem) (v : Q) :=
  mkSystem (m self) (b self) (Kv self) (tau_engine self) (v_desired self)
    (Kp self) (Ki self) (Kd self) (throttle_max self) (throttle_min self)
    (dt self) (T_sim self)
    (v_current self) (throttle self) v (error_prev self)
    (engine_state self) (vehicle_state self).

Definition set_error_prev (self : CruiseControlSystem) (v : Q) :=
  mkSystem (m self) (b self) (Kv self) (tau_engine self) (v_desired self)
    (Kp self) (Ki self) (Kd self) (throttle_max self) (throttle_min self)
    (dt self) (T_sim self)
    (v_current self) (throttle self) (error_integral self) v
    (engine_state self) (vehicle_state self).

Definition set_engine_state (self : CruiseControlSystem) (v : Q) :=
  mkSystem (m self) (b self) (Kv self) (tau_engine self) (v_desired self)
    (Kp self) (Ki self) (Kd self) (throttle_max self) (throttle_min self)
    (dt self) (T_sim self)
    (v_current self) (throttle self) (error_integral self) (error_prev self)
    v (vehicle_state self).

(** [reset_states]: the six state attributes become [0.0]. *)
Definition reset_states (self : CruiseControlSystem) : CruiseControlSystem :=
  mkSystem (m self) (b self) (Kv self) (tau_engine self) (v_desired self)
    (Kp self) (Ki self) (Kd self) (throttle_max self) (throttle_min self)
    (dt self) (T_sim self)
    0 0 0 0 0 0.

(** [__init__]: the default parameters, then [reset_states]. *)
Definition init : CruiseControlSystem :=
  reset_states
    (mkSystem 1000 50 500 (1 # 2) 29 800 40 40 1 0 (1 # 100) 100
              0 0 0 0 0 0).

(** ** The three blocks *)

Definition System := CruiseControlSystem.

(** [pid_controller(self, error)]. *)
Definition pid_controller (self : System) (error : Q) : outcome System Q :=
  let p_term := Kp self * error in
  let self := set_error_integral self (error_integral self + error * dt self) in
  let i_term := Ki self * error_integral self in
  match py_div (Kd self * (error - error_prev self)) (dt self) with
  | None => Raise self ZeroDivisionError
  | Some d_term =>
      let self := set_error_prev self error in
      let control_signal := p_term + i_term + d_term in
      let control_signal :=
        np_clip control_signal (throttle_min self) (throttle_max self) in
      let self :=
        if Qle_bool (throttle_max self) control_signal
           || Qle_bool control_signal (throttle_min self)
        then set_error_integral self (error_integral self - error * dt self)
        else self in
      Ok self control_signal
  end.

(** [engine_model(self, throttle_input)]. *)
Definition engine_model (self : System) (throttle_input : Q)
  : outcome System Q :=
  let force_command := Kv self * throttle_input in
  match py_div ((force_command - engine_state self) * dt self)
               (tau_engine self) with
  | None => Raise self ZeroDivisionError
  | Some delta =>
      let self := set_engine_state self (engine_state self + delta) in
      Ok self (engine_state self)
  end.

(** [vehicle_model(self, engine_force, disturbance_force)]. *)
Definition vehicle_model (self : System) (engine_force disturbance_force : Q)
  : outcome System Q :=
  let total_force :=
    engine_force - b self * v_current self + disturbance_force in
  match py_div total_force (m self) with
  | None => Raise self ZeroDivisionError
  | Some acceleration =>
      let self := set_v_current self (v_current self + acceleration * dt self) in
      Ok self (v_current self)
  end.

(** ** The simulation loop *)

(** [reference_speed] is either a number or a callable of the time. *)
Inductive reference : Type :=
| RefConst (v : Q)
| RefFun (f : Q -> Q).

(** The dictionary returned by [simulate], one array per key. *)
Record SimResult : Type := mkResult {
  r_time : list Q;
  r_speed : list Q;
  r_throttle : list Q;
  r_error : list Q;
  r_force : list Q;
  r_reference : list Q
}.

(** The five log arrays that the loop fills in. *)
Record Logs : Type := mkLogs {
  speed_log : list Q;
  throttle_log : list Q;
  error_log : list Q;
  force_log : list Q;
  reference_log : list Q
}.

(** The values computed by one pass through the loop body, before they are
    written to the logs. *)
Record Row : Type := mkRow {
  row_speed : Q;
  row_throttle : Q;
  row_error : Q;
  row_force : Q;
  row_reference : Q
}.

(** [v_ref]: [reference_speed(t)] when callable, else [reference_speed]. *)
Definition eval_reference (reference_speed : reference) (t : Q) : Q :=
  match reference_speed with
  | RefFun f => f t
  | RefConst v => v
  end.

(** [dist_force = 0], then, when [disturbances] is truthy (neither [None]
    nor empty), [dist_force += dist_func(t)] for each function in order. *)
Definition disturbance_force (disturbances : option (list (Q -> Q))) (t : Q)
  : Q :=
  match disturbances with
  | None => 0
  | Some [] => 0
  | Some fs => fold_left (fun dist_force dist_func => dist_force + dist_func t)
                         fs 0
  end.

(** The loop body up to the logging: error, controller, engine,
    disturbances, vehicle. *)
Definition simulate_body (self : System) (reference_speed : reference)
    (disturbances : option (list (Q -> Q))) (t : Q) : outcome System Row :=
  let v_ref := eval_reference reference_speed t in
  let error := v_ref - v_current self in
  call (self, throttle_cmd) <- pid_controller self error ;;
  call (self, engine_force) <- engine_model self throttle_cmd ;;
  let dist_force := disturbance_force disturbances t in
  call (self, speed) <- vehicle_model self engine_force dist_force ;;
  Ok self (mkRow speed throttle_cmd error engine_force v_ref).

(** The logging part of the loop body: five indexed assignments. *)
Definition log_row (logs : Logs) (i : nat) (r : Row) : option Logs :=
  match setitem (speed_log logs) i (row_speed r),
        setitem (throttle_log logs) i (row_throttle r),
        setitem (error_log logs) i (row_error r),
        setitem (force_log logs) i (row_force r),
        setitem (reference_log logs) i (row_reference r) with
  | Some sl, Some tl, Some el, Some fl, Some rl => Some (mkLogs sl tl el fl rl)
  | _, _, _, _, _ => None
  end.

(** [for i, t in enumerate(time): ...]. *)
Fixpoint simulate_loop (self : System) (reference_speed : reference)
    (disturbances : option (list (Q -> Q))) (logs : Logs)
    (its : list (nat * Q)) : outcome System Logs :=
  match its with
  | [] => Ok self logs
  | (i, t) :: rest =>
      call (self, r) <- simulate_body self reference_speed disturbances t ;;
      match log_row logs i r with
      | None => Raise self IndexError
      | Some logs => simulate_loop self reference_speed disturbances logs rest
      end
  end.

(** [simulate(self, reference_speed=None, disturbances=None)]. *)
Definition simulate (self : System) (reference_speed : option reference)
    (disturbances : option (list (Q -> Q))) : outcome System SimResult :=
  let reference_speed :=
    match reference_speed with
    | None => RefConst (v_desired self)
    | Some r => r
    end in
  match np_arange 0 (T_sim self) (dt self) with
  | None => Raise self ZeroDivisionError
  | Some time =>
      let n_steps := length time in
      let logs := mkLogs (np_zeros n_steps) (np_zeros n_steps)
                         (np_zeros n_steps) (np_zeros n_steps)
                         (np_zeros n_steps) in
      let self := reset_states self in
      call (self, logs) <-
        simulate_loop self reference_speed disturbances logs (enumerate time) ;;
      Ok self (mkResult time (speed_log logs) (throttle_log logs)
                        (error_log logs) (force_log logs)
                        (reference_log logs))
  end.

(** ** Provider functions *)

(** [step_reference(initial_speed, final_speed, step_time)]. *)
Definition step_reference (initial_speed final_speed step_time : Q) : Q -> Q :=
  fun t => if Qle_bool step_time t then final_speed else initial_speed.

(** [wind_disturbance(wind_speed_ms)]. *)
Definition wind_disturbance (wind_speed_ms : Q) : Q -> Q :=
  fun _ => - (6 # 10) * wind_speed_ms ^ 2.

(** A disturbance shaped like [road_grade_disturbance]: zero before
    [start_time], a constant force from then on.  (The program computes that
    force with a sine, which has no rational value; here it is given.) *)
Definition grade_disturbance (force start_time : Q) : Q -> Q :=
  fun t => if Qle_bool start_time t then force else 0.

(** ** Vocabulary of the statements *)

(** The raw command of a controller call, [p_term + i_term + d_term], as a
    function of the object before the call and the error. *)
Definition u_raw (self : System) (error : Q) : Q :=
  Kp self * error
  + Ki self * (error_integral self + error * dt self)
  + Kd self * (error - error_prev self) / dt self.

(** The raw command is at or beyond a bound. *)
Definition saturated (self : System) (error : Q) : Prop :=
  throttle_max self <= u_raw self error \/ u_raw self error <= throttle_min self.

(** Sum of a list of numbers. *)
Definition Qsum (l : list Q) : Q := fold_right Qplus 0 l.

(** Two objects carry the same configuration. *)
Definition same_params (s1 s2 : System) : Prop :=
  m s1 = m s2 /\ b s1 = b s2 /\ Kv s1 = Kv s2 /\
  tau_engine s1 = tau_engine s2 /\ v_desired s1 = v_desired s2 /\
  Kp s1 = Kp s2 /\ Ki s1 = Ki s2 /\ Kd s1 = Kd s2 /\
  throttle_max s1 = throttle_max s2 /\ throttle_min s1 = throttle_min s2 /\
  dt s1 = dt s2 /\ T_sim s1 = T_sim s2.

(** All state attributes are zero. *)
Definition state_is_zero (self : System) : Prop :=
  v_current self = 0 /\ throttle self = 0 /\ error_integral self = 0 /\
  error_prev self = 0 /\ engine_state self = 0 /\ vehicle_state self = 0.

(** What a controller call leaves alone: every attribute other than
    [error_integral] and [error_prev]. *)
Definition pid_frame (s s' : System) : Prop :=
  same_params s s' /\ v_current s' = v_current s /\
  throttle s' = throttle s /\ engine_state s' = engine_state s /\
  vehicle_state s' = vehicle_state s.

(** The configurations the specification calls invalid. *)
Definition invalid_config (self : System) : Prop :=
  m self <= 0 \/ tau_engine self <= 0 \/ dt self <= 0 \/
  throttle_max self <= throttle_min self \/ T_sim self <= 0.

(** What a caller sees of an outcome: the value or the exception. *)
Definition observable {S A : Type} (o : outcome S A) : A + exn :=
  match o with
  | Ok _ a => inl a
  | Raise _ e => inr e
  end.

(** The object after a controller call that did not roll back. *)
Definition pid_integrated (self : System) (error : Q) : System :=
  set_error_prev
    (set_error_integral self (error_integral self + error * dt self)) error.

(** The object after a controller call whose anti-windup branch ran. *)
Definition pid_rolled_back (self : System) (error : Q) : System :=
  set_error_integral (pid_integrated self error)
    (error_integral self + error * dt self - error * dt self).

(** *** Runs *)

(** The number of grid points of a run, [ceil(T_sim / dt)]. *)
Definition grid_size (self : System) : nat :=
  Z.to_nat (Qceiling (T_sim self / dt self)).

(** The time grid of a run. *)
Definition time_grid (self : System) : list Q :=
  map (fun i : nat => 0 + inject_Z (Z.of_nat i) * dt self)
      (seq 0 (grid_size self)).

(** The reference used by a run: [v_desired] when none is given. *)
Definition reference_or_default (self : System) (r : option reference)
  : reference :=
  match r with
  | None => RefConst (v_desired self)
  | Some r => r
  end.

(** The functions of a disturbance argument ([None] holds none). *)
Definition disturbance_list (ds : option (list (Q -> Q))) : list (Q -> Q) :=
  match ds with
  | None => []
  | Some fs => fs
  end.

(** The loop read as a function from the time grid to the rows, state
    threaded from one grid point to the next. *)
Fixpoint run_rows (self : System) (reference_speed : reference)
    (disturbances : option (list (Q -> Q))) (ts : list Q)
  : outcome System (list Row) :=
  match ts with
  | [] => Ok self []
  | t :: rest =>
      call (self, r) <- simulate_body self reference_speed disturbances t ;;
      call (self, rs) <- run_rows self reference_speed disturbances rest ;;
      Ok self (r :: rs)
  end.

(** The result dictionary whose columns are those of [rows]. *)
Definition result_of_rows (time : list Q) (rows : list Row) : SimResult :=
  mkResult time (map row_speed rows) (map row_throttle rows)
           (map row_error rows) (map row_force rows)
           (map row_reference rows).

(** The output arrays follow the plant equation with the summed disturbance:
    starting from velocity [v], each logged speed is obtained from the one
    before it, the logged engine force and the sum of all disturbance
    functions at that grid time. *)
Fixpoint plant_steps (self : System) (fs : list (Q -> Q)) (v : Q)
    (times forces speeds : list Q) : Prop :=
  match times, forces, speeds with
  | [], [], [] => True
  | t :: times', F :: forces', v' :: speeds' =>
      v' == v + ((F - b self * v + Qsum (map (fun f => f t) fs)) / m self)
                * dt self /\
      plant_steps self fs v' times' forces' speeds'
  | _, _, _ => False
  end.

(** *** The log arrays *)

(** [splice a k vs]: the array [a] with the entries at [k], [k+1], ...
    replaced by [vs]. *)
Definition splice (a : list Q) (k : nat) (vs : list Q) : list Q :=
  firstn k a ++ vs ++ skipn (k + length vs) a.

(** All five logs have [n] entries. *)
Definition logs_length (logs : Logs) (n : nat) : Prop :=
  length (speed_log logs) = n /\ length (throttle_log logs) = n /\
  length (error_log logs) = n /\ length (force_log logs) = n /\
  length (reference_log logs) = n.

(** The logs after the rows [rows] were written from index [k] on. *)
Definition write_rows (logs : Logs) (k : nat) (rows : list Row) : Logs :=
  mkLogs (splice (speed_log logs) k (map row_speed rows))
         (splice (throttle_log logs) k (map row_throttle rows))
         (splice (error_log logs) k (map row_error rows))
         (splice (force_log logs) k (map row_force rows))
         (splice (reference_log logs) k (map row_reference rows)).

(** ** Example objects *)

(** The default parameters with a run of three steps. *)
Definition small_system : System :=
  mkSystem 1000 50 500 (1 # 2) 29 800 40 40 1 0 (1 # 100) (3 # 100)
           0 0 0 0 0 0.

(** The same, left in an arbitrary state by earlier use. *)
Definition used_system : System :=
  mkSystem 1000 50 500 (1 # 2) 29 800 40 40 1 0 (1 # 100) (3 # 100)
           12 (1 # 2) (-4) 3 250 9.

(** A controller with a non-zero integral. *)
Definition wound_system : System := set_error_integral small_system (1 # 10).

(** A run whose duration is not a multiple of the step: [T_sim = 1],
    [dt = 0.3]. *)
Definition coarse_system : System :=
  mkSystem 1000 50 500 (1 # 2) 29 800 40 40 1 0 (3 # 10) 1
           0 0 0 0 0 0.

(** A negative mass and command bounds in the wrong order. *)
Definition invalid_system : System :=
  mkSystem (-1000) 50 500 (1 # 2) 29 800 40 40 0 1 (1 # 100) (3 # 100)
           7 0 0 0 0 0.

(** A zero step. *)
Definition zero_step_system : System :=
  mkSystem 1000 50 500 (1 # 2) 29 800 40 40 1 0 0 100 7 0 3 0 0 0.

(** A head wind of 10 m/s and a grade that starts at [t = 0.01]. *)
Definition wind : Q -> Q := wind_disturbance 10.
Definition grade : Q -> Q := grade_disturbance (- 855) (1 # 100).

(** ** Vocabulary of the further properties *)

(** The rows follow the wiring of the loop: starting from velocity [v] and
    engine force [x], each row takes its reference at its grid time, its error
    against the velocity of the row before, and its force from the force of
    the row before and its own command. *)
Fixpoint rows_follow (self : System) (ref : reference) (v x : Q)
    (ts : list Q) (rows : list Row) : Prop :=
  match ts, rows with
  | [], [] => True
  | t :: ts', r :: rows' =>
      row_reference r = eval_reference ref t /\
      row_error r = row_reference r - v /\
      row_force r
      = x + (Kv self * row_throttle r - x) * dt self / tau_engine self /\
      rows_follow self ref (row_speed r) (row_force r) ts' rows'
  | _, _ => False
  end.

(** ** The program in binary64 *)

(** The same program with the numbers it really computes with.  A number
    is a binary64 value together with its kind: a Python number or a NumPy
    [float64] scalar.  The kind decides one thing only: a division by zero
    raises [ZeroDivisionError] between Python numbers and returns inf or nan
    (with a warning) as soon as one operand is a NumPy scalar.  Python
    integers (the defaults [1000], [50], ...) are taken as the floats they
    convert to.  Arithmetic is that of the kernel's primitive floats: IEEE 754
    binary64, round to nearest even. *)
Set Warnings "-inexact-float".

Module B64.

Local Open Scope float_scope.

Inductive exn : Type :=
| ZeroDivisionError
| ValueError
| IndexError
| TypeError.

Inductive outcome (S A : Type) : Type :=
| Ok (self : S) (a : A)
| Raise (self : S) (e : exn).

Arguments Ok {S A} self a.
Arguments Raise {S A} self e.

Definition bind {S A B : Type} (c : outcome S A) (k : S -> A -> outcome S B)
  : outcome S B :=
  match c with
  | Ok self a => k self a
  | Raise self e => Raise self e
  end.

Notation "'invoke' ( s , x ) <- c ;; k" :=
  (bind c (fun s x => k))
  (at level 10, s name, x name, c at level 100, k at level 200).

(** *** Numbers *)

Record num : Type := mkNum {
  val : float;
  is_np : bool
}.

(** A Python number and a NumPy scalar. *)
Definition py (x : float) : num := mkNum x false.
Definition float64 (x : float) : num := mkNum x true.

(** [x + y], [x - y], [x * y]: a NumPy scalar as soon as one operand is. *)
Definition num_add (x y : num) : num :=
  mkNum (val x + val y) (is_np x || is_np y).
Definition num_sub (x y : num) : num :=
  mkNum (val x - val y) (is_np x || is_np y).
Definition num_mul (x y : num) : num :=
  mkNum (val x * val y) (is_np x || is_np y).

(** [x / y]: [ZeroDivisionError] (here [None]) between Python numbers when
    [y] is zero, the IEEE quotient otherwise. *)
Definition num_div (x y : num) : option num :=
  if negb (is_np x) && negb (is_np y) && (val y =? 0) then None
  else Some (mkNum (val x / val y) (is_np x || is_np y)).

(** *** NumPy helpers *)

(** The [clip] ufunc on doubles: [_NPY_MIN(_NPY_MAX(x, min), max)] with
    [_NPY_MAX(a, b) = isnan(a) ? a : (a > b ? a : b)] and
    [_NPY_MIN(a, b) = isnan(a) ? a : (a < b ? a : b)]. *)
Definition npy_max (a b0 : float) : float :=
  if is_nan a then a else if b0 <? a then a else b0.
Definition npy_min (a b0 : float) : float :=
  if is_nan a then a else if a <? b0 then a else b0.
Definition clip (x lo hi : float) : float := npy_min (npy_max x lo) hi.

(** [np.clip(a, a_min, a_max)] returns a NumPy scalar. *)
Definition np_clip (a a_min a_max : num) : num :=
  float64 (clip (val a) (val a_min) (val a_max)).

(** The integer [ceil(x)] of a finite double. *)
Definition ceil_Z (x : float) : option Z :=
  match Prim2SF x with
  | S754_zero _ => Some 0%Z
  | S754_finite s mant e =>
      let v := cond_Zopp s (Z.pos mant) in
      Some (if (0 <=? e)%Z then (v * 2 ^ e)%Z
            else (- ((- v) / 2 ^ (- e)))%Z)
  | S754_infinity _ => None
  | S754_nan => None
  end.

(** The double of a small index. *)
Definition of_nat (i : nat) : float :=
  PrimFloat.of_uint63 (Uint63.of_Z (Z.of_nat i)).

(** The length computed by [np.arange(start, stop, step)]: the quotient
    [(stop - start) / step] is formed with Python's operators, then rounded
    up; a quotient that underflowed to zero counts one point (none when
    negative); a quotient that is nan or beyond the index range raises
    [ValueError]; a length that is not positive is zero.  (The model has no
    memory limit.) *)
Definition arange_length (start stop step : num) : exn + nat :=
  let next := num_sub stop start in
  match num_div next step with
  | None => inl ZeroDivisionError
  | Some q =>
      if (val q =? 0) && negb (val next =? 0)
      then inr (if get_sign (val q) then 0%nat else 1%nat)
      else
        match ceil_Z (val q) with
        | None => inl ValueError
        | Some n =>
            if (n <? - 2 ^ 63)%Z || (2 ^ 63 <? n)%Z then inl ValueError
            else inr (Z.to_nat n)
        end
  end.

(** The entries: [start], [start + step], then [start + i * delta] with
    [delta = (start + step) - start]. *)
Definition arange_item (start step : num) (i : nat) : float :=
  match i with
  | O => val start
  | S O => val start + val step
  | _ => val start + of_nat i * ((val start + val step) - val start)
  end.

Definition np_arange (start stop step : num) : exn + list float :=
  match arange_length start stop step with
  | inl e => inl e
  | inr n => inr (map (arange_item start step) (seq 0 n))
  end.

(** [np.zeros(n)]. *)
Definition np_zeros (n : nat) : list float := repeat 0 n.

(** [a[i] = v]: out of range raises [IndexError]. *)
Fixpoint setitem (a : list float) (i : nat) (v : float)
  : option (list float) :=
  match a, i with
  | [], _ => None
  | _ :: tl, O => Some (v :: tl)
  | x :: tl, S j =>
      match setitem tl j v with
      | Some tl' => Some (x :: tl')
      | None => None
      end
  end.

(** *** The object *)

Record CruiseControlSystem : Type := mkSystem {
  m : num;
  b : num;
  Kv : num;
  tau_engine : num;
  v_desired : num;
  Kp : num;
  Ki : num;
  Kd : num;
  throttle_max : num;
  throttle_min : num;
  dt : num;
  T_sim : num;
  v_current : num;
  throttle : num;
  error_integral : num;
  error_prev : num;
  engine_state : num;
  vehicle_state : num
}.

Definition System := CruiseControlSystem.

Definition set_v_current (self : System) (v : num) : System :=
  mkSystem (m self) (b self) (Kv self) (tau_engine self) (v_desired self)
    (Kp self) (Ki self) (Kd self) (throttle_max self) (throttle_min self)
    (dt self) (T_sim self)
    v (throttle self) (error_integral self) (error_prev self)
    (engine_state self) (vehicle_state self).

Definition set_error_integral (self : System) (v : num) : System :=
  mkSystem (m self) (b self) (Kv self) (tau_engine self) (v_desired self)
    (Kp self) (Ki self) (Kd self) (throttle_max self) (throttle_min self)
    (dt self) (T_sim self)
    (v_current self) (throttle self) v (error_prev self)
    (engine_state self) (vehicle_state self).

Definition set_error_prev (self : System) (v : num) : System :=
  mkSystem (m self) (b self) (Kv self) (tau_engine self) (v_desired self)
    (Kp self) (Ki self) (Kd self) (throttle_max self) (throttle_min self)
    (dt self) (T_sim self)
    (v_current self) (throttle self) (error_integral self) v
    (engine_state self) (vehicle_state self).

Definition set_engine_state (self : System) (v : num) : System :=
  mkSystem (m self) (b self) (Kv self) (tau_engine self) (v_desired self)
    (Kp self) (Ki self) (Kd self) (throttle_max self) (throttle_min self)
    (dt self) (T_sim self)
    (v_current self) (throttle self) (error_integral self) (error_prev self)
    v (vehicle_state self).

(** [reset_states]: the six state attributes become the Python float
    [0.0]. *)
Definition reset_states (self : System) : System :=
  mkSystem (m self) (b self) (Kv self) (tau_engine self) (v_desired self)
    (Kp self) (Ki self) (Kd self) (throttle_max self) (throttle_min self)
    (dt self) (T_sim self)
    (py 0) (py 0) (py 0) (py 0) (py 0) (py 0).

(** An object with the given parameters, freshly reset. *)
Definition system (m0 b0 Kv0 tau0 vd0 Kp0 Ki0 Kd0 tmax0 tmin0 dt0 T0 : float)
  : System :=
  mkSystem (py m0) (py b0) (py Kv0) (py tau0) (py vd0) (py Kp0) (py Ki0)
           (py Kd0) (py tmax0) (py tmin0) (py dt0) (py T0)
           (py 0) (py 0) (py 0) (py 0) (py 0) (py 0).

(** [__init__]. *)
Definition init : System :=
  system 1000 50 500 0.5 29 800 40 40 1 0 0.01 100.

(** *** The three blocks *)

(** [pid_controller(self, error)]. *)
Definition pid_controller (self : System) (error : num) : outcome System num :=
  let p_term := num_mul (Kp self) error in
  let self :=
    set_error_integral self
      (num_add (error_integral self) (num_mul error (dt self))) in
  let i_term := num_mul (Ki self) (error_integral self) in
  match num_div (num_mul (Kd self) (num_sub error (error_prev self)))
                (dt self) with
  | None => Raise self ZeroDivisionError
  | Some d_term =>
      let self := set_error_prev self error in
      let control_signal := num_add (num_add p_term i_term) d_term in
      let control_signal :=
        np_clip control_signal (throttle_min self) (throttle_max self) in
      let self :=
        if (val (throttle_max self) <=? val control_signal)
           || (val control_signal <=? val (throttle_min self))
        then set_error_integral self
               (num_sub (error_integral self) (num_mul error (dt self)))
        else self in
      Ok self control_signal
  end.

(** [engine_model(self, throttle_input)]. *)
Definition engine_model (self : System) (throttle_input : num)
  : outcome System num :=
  let force_command := num_mul (Kv self) throttle_input in
  match num_div (num_mul (num_sub force_command (engine_state self)) (dt self))
                (tau_engine self) with
  | None => Raise self ZeroDivisionError
  | Some delta =>
      let self := set_engine_state self (num_add (engine_state self) delta) in
      Ok self (engine_state self)
  end.

(** [vehicle_model(self, engine_force, disturbance_force)]. *)
Definition vehicle_model (self : System) (engine_force disturbance_force : num)
  : outcome System num :=
  let total_force :=
    num_add (num_sub engine_force (num_mul (b self) (v_current self)))
            disturbance_force in
  match num_div total_force (m self) with
  | None => Raise self ZeroDivisionError
  | Some acceleration =>
      let self :=
        set_v_current self
          (num_add (v_current self) (num_mul acceleration (dt self))) in
      Ok self (v_current self)
  end.

(** *** The simulation loop *)

Inductive reference : Type :=
| RefConst (v : num)
| RefFun (f : num -> num).

Record SimResult : Type := mkResult {
  r_time : list float;
  r_speed : list float;
  r_throttle : list float;
  r_error : list float;
  r_force : list float;
  r_reference : list float
}.

Record Logs : Type := mkLogs {
  speed_log : list float;
  throttle_log : list float;
  error_log : list float;
  force_log : list float;
  reference_log : list float
}.

Record Row : Type := mkRow {
  row_speed : float;
  row_throttle : float;
  row_error : float;
  row_force : float;
  row_reference : float
}.

Definition eval_reference (reference_speed : reference) (t : num) : num :=
  match reference_speed with
  | RefFun f => f t
  | RefConst v => v
  end.

(** [dist_force = 0], then [dist_force += dist_func(t)] for each function
    when [disturbances] is neither [None] nor empty. *)
Definition disturbance_force (disturbances : option (list (num -> num)))
    (t : num) : num :=
  match disturbances with
  | None => py 0
  | Some [] => py 0
  | Some fs =>
      fold_left (fun dist_force dist_func => num_add dist_force (dist_func t))
                fs (py 0)
  end.

(** The loop body up to the logging; [t] is an entry of the [time] array, a
    NumPy scalar. *)
Definition simulate_body (self : System) (reference_speed : reference)
    (disturbances : option (list (num -> num))) (t : float)
  : outcome System Row :=
  let t := float64 t in
  let v_ref := eval_reference reference_speed t in
  let error := num_sub v_ref (v_current self) in
  invoke (self, throttle_cmd) <- pid_controller self error ;;
  invoke (self, engine_force) <- engine_model self throttle_cmd ;;
  let dist_force := disturbance_force disturbances t in
  invoke (self, speed) <- vehicle_model self engine_force dist_force ;;
  Ok self (mkRow (val speed) (val throttle_cmd) (val error)
                 (val engine_force) (val v_ref)).

Definition log_row (logs : Logs) (i : nat) (r : Row) : option Logs :=
  match setitem (speed_log logs) i (row_speed r),
        setitem (throttle_log logs) i (row_throttle r),
        setitem (error_log logs) i (row_error r),
        setitem (force_log logs) i (row_force r),
        setitem (reference_log logs) i (row_reference r) with
  | Some sl, Some tl, Some el, Some fl, Some rl => Some (mkLogs sl tl el fl rl)
  | _, _, _, _, _ => None
  end.

Fixpoint simulate_loop (self : System) (reference_speed : reference)
    (disturbances : option (list (num -> num))) (logs : Logs)
    (its : list (nat * float)) : outcome System Logs :=
  match its with
  | [] => Ok self logs
  | (i, t) :: rest =>
      invoke (self, r) <- simulate_body self reference_speed disturbances t ;;
      match log_row logs i r with
      | None => Raise self IndexError
      | Some logs => simulate_loop self reference_speed disturbances logs rest
      end
  end.

(** [simulate(self, reference_speed=None, disturbances=None)]. *)
Definition simulate (self : System) (reference_speed : option reference)
    (disturbances : option (list (num -> num))) : outcome System SimResult :=
  let reference_speed :=
    match reference_speed with
    | None => RefConst (v_desired self)
    | Some r => r
    end in
  match np_arange (py 0) (T_sim self) (dt self) with
  | inl e => Raise self e
  | inr time =>
      let n_steps := length time in
      let logs := mkLogs (np_zeros n_steps) (np_zeros n_steps)
                         (np_zeros n_steps) (np_zeros n_steps)
                         (np_zeros n_steps) in
      let self := reset_states self in
      invoke (self, logs) <-
        simulate_loop self reference_speed disturbances logs (enumerate time) ;;
      Ok self (mkResult time (speed_log logs) (throttle_log logs)
                        (error_log logs) (force_log logs)
                        (reference_log logs))
  end.

(** *** Vocabulary of the binary64 statements *)

(** The raw command [p_term + i_term + d_term] of a controller call, as
    the program evaluates it. *)
Definition raw_command (self : System) (error : float) : float :=
  val (Kp self) * error
  + val (Ki self) * (val (error_integral self) + error * val (dt self))
  + val (Kd self) * (error - val (error_prev self)) / val (dt self).

(** The raw command is at or beyond a bound. *)
Definition saturated (self : System) (error : float) : Prop :=
  (val (throttle_max self) <=? raw_command self error) = true \/
  (raw_command self error <=? val (throttle_min self)) = true.

(** A command that is nan or lies between the bounds. *)
Definition nan_or_within (lo hi u : float) : Prop :=
  is_nan u = true \/ ((lo <=? u) = true /\ (u <=? hi) = true).

(** The object after a controller call that did not roll back, and after
    one that did. *)
Definition pid_integrated (self : System) (error : num) : System :=
  set_error_prev
    (set_error_integral self
       (num_add (error_integral self) (num_mul error (dt self)))) error.

Definition pid_rolled_back (self : System) (error : num) : System :=
  set_error_integral (pid_integrated self error)
    (num_sub (num_add (error_integral self) (num_mul error (dt self)))
             (num_mul error (dt self))).

Definition same_params (s1 s2 : System) : Prop :=
  m s1 = m s2 /\ b s1 = b s2 /\ Kv s1 = Kv s2 /\
  tau_engine s1 = tau_engine s2 /\ v_desired s1 = v_desired s2 /\
  Kp s1 = Kp s2 /\ Ki s1 = Ki s2 /\ Kd s1 = Kd s2 /\
  throttle_max s1 = throttle_max s2 /\ throttle_min s1 = throttle_min s2 /\
  dt s1 = dt s2 /\ T_sim s1 = T_sim s2.

Definition reference_or_default (self : System) (r : option reference)
  : reference :=
  match r with
  | None => RefConst (v_desired self)
  | Some r => r
  end.

(** The loop read as a function from the time grid to the rows. *)
Fixpoint run_rows (self : System) (reference_speed : reference)
    (disturbances : option (list (num -> num))) (ts : list float)
  : outcome System (list Row) :=
  match ts with
  | [] => Ok self []
  | t :: rest =>
      invoke (self, r) <- simulate_body self reference_speed disturbances t ;;
      invoke (self, rs) <- run_rows self reference_speed disturbances rest ;;
      Ok self (r :: rs)
  end.

Definition result_of_rows (time : list float) (rows : list Row) : SimResult :=
  mkResult time (map row_speed rows) (map row_throttle rows)
           (map row_error rows) (map row_force rows)
           (map row_reference rows).


(** The log arrays. *)
Definition splice (a : list float) (k : nat) (vs : list float) : list float :=
  firstn k a ++ vs ++ skipn (k + length vs) a.

Definition logs_length (logs : Logs) (n : nat) : Prop :=
  length (speed_log logs) = n /\ length (throttle_log logs) = n /\
  length (error_log logs) = n /\ length (force_log logs) = n /\
  length (reference_log logs) = n.

Definition write_rows (logs : Logs) (k : nat) (rows : list Row) : Logs :=
  mkLogs (splice (speed_log logs) k (map row_speed rows))
         (splice (throttle_log logs) k (map row_throttle rows))
         (splice (error_log logs) k (map row_error rows))
         (splice (force_log logs) k (map row_force rows))
         (splice (reference_log logs) k (map row_reference rows)).

(** *** Example objects *)

(** The defaults with a saturated controller whose integral is [0.1]. *)
Definition wound_system : System := set_error_integral init (py 0.1).

(** The defaults with a large previous error. *)
Definition overflowing_system : System := set_error_prev init (py 1e308).

(** A configuration that meets every documented invariant, with a step far
    too coarse for the plant: [dt = 10], [T_sim = 10000]. *)
Definition unstable_system : System :=
  system 1000 50 500 0.5 29 800 40 40 1 0 10 10000.

(** Durations that are not multiples of the step. *)
Definition coarse_system : System :=
  system 1000 50 500 0.5 29 800 40 40 1 0 0.3 1.

Definition seven_hundredths_system : System :=
  system 1000 50 500 0.5 29 800 40 40 1 0 0.01 0.07.

(** A negative mass, command bounds in the wrong order, three steps. *)
Definition invalid_system : System :=
  system (-1000) 50 500 0.5 29 800 40 40 0 1 0.01 0.03.

(** A zero mass and a zero engine time constant. *)
Definition massless_system : System :=
  system 0 50 500 0 29 800 40 40 1 0 0.01 0.03.

(** A zero step, a negative duration, a duration that is not a number. *)
Definition zero_step_system : System :=
  system 1000 50 500 0.5 29 800 40 40 1 0 0 100.

Definition negative_duration_system : System :=
  system 1000 50 500 0.5 29 800 40 40 1 0 0.01 (-1).

Definition nan_duration_system : System :=
  system 1000 50 500 0.5 29 800 40 40 1 0 0.01 nan.

(** *** [performance_analysis] of [custom_cruise_tests.py] *)

Definition set_Kp (self : System) (v : num) : System :=
  mkSystem (m self) (b self) (Kv self) (tau_engine self) (v_desired self)
    v (Ki self) (Kd self) (throttle_max self) (throttle_min self)
    (dt self) (T_sim self)
    (v_current self) (throttle self) (error_integral self) (error_prev self)
    (engine_state self) (vehicle_state self).

Definition set_Ki (self : System) (v : num) : System :=
  mkSystem (m self) (b self) (Kv self) (tau_engine self) (v_desired self)
    (Kp self) v (Kd self) (throttle_max self) (throttle_min self)
    (dt self) (T_sim self)
    (v_current self) (throttle self) (error_integral self) (error_prev self)
    (engine_state self) (vehicle_state self).

Definition set_Kd (self : System) (v : num) : System :=
  mkSystem (m self) (b self) (Kv self) (tau_engine self) (v_desired self)
    (Kp self) (Ki self) v (throttle_max self) (throttle_min self)
    (dt self) (T_sim self)
    (v_current self) (throttle self) (error_integral self) (error_prev self)
    (engine_state self) (vehicle_state self).

Inductive tuning_name : Type := Conservative | Balanced | Aggressive.

Record Tuning : Type := mkTuning {
  name : tuning_name;
  tuning_Kp : float;
  tuning_Ki : float;
  tuning_Kd : float
}.

Definition tuning_sets : list Tuning :=
  [ mkTuning Conservative 400 20 30;
    mkTuning Balanced 800 40 40;
    mkTuning Aggressive 1200 60 80 ].

(** [cruise = CruiseControlSystem()] followed by the three assignments. *)
Definition tuned (tuning : Tuning) : System :=
  set_Kd (set_Ki (set_Kp init (py (tuning_Kp tuning)))
                 (py (tuning_Ki tuning)))
         (py (tuning_Kd tuning)).

(** [np.where(speed >= threshold)[0]]: the indices, in increasing order,
    counted from [i]. *)
Fixpoint np_where_ge (speed : list float) (threshold : float) (i : nat)
  : list nat :=
  match speed with
  | [] => []
  | v :: rest =>
      if threshold <=? v then i :: np_where_ge rest threshold (S i)
      else np_where_ge rest threshold (S i)
  end.

(** [results['time'][rise_time_idx[0]] if len(rise_time_idx) > 0 else
    None]. *)
Definition rise_time (results : SimResult) (cruise : System)
  : exn + option float :=
  match np_where_ge (r_speed results) (0.9 * val (v_desired cruise)) 0 with
  | [] => inr None
  | i :: _ =>
      match nth_error (r_time results) i with
      | Some t => inr (Some t)
      | None => inl IndexError
      end
  end.

(** [a.max()]: [ValueError] on an empty array. *)
Definition np_amax (a : list float) : exn + float :=
  match a with
  | [] => inl ValueError
  | x :: rest => inr (fold_left npy_max rest x)
  end.

(** [(results['speed'].max() - cruise.v_desired) / cruise.v_desired * 100],
    the maximum being a NumPy scalar. *)
Definition overshoot (results : SimResult) (cruise : System) : exn + float :=
  match np_amax (r_speed results) with
  | inl e => inl e
  | inr vmax => inr ((vmax - val (v_desired cruise)) / val (v_desired cruise)
                     * 100)
  end.

(** [f"{x:.1f}"]: a float is formatted, [None] with a format specification
    raises [TypeError].  The text itself is not modelled. *)
Definition format_1f (x : option float) : exn + unit :=
  match x with
  | Some _ => inr tt
  | None => inl TypeError
  end.

(** The body of the loop over the tunings, from the run to the first
    [print] of a metric.  The mean of the last thousand speeds raises nothing
    and is only printed, after the rise time and the overshoot. *)
Definition analyse (tuning : Tuning) : outcome System SimResult :=
  invoke (cruise, results) <- simulate (tuned tuning) None None ;;
  match rise_time results cruise with
  | inl e => Raise cruise e
  | inr rise =>
      match overshoot results cruise with
      | inl e => Raise cruise e
      | inr _ =>
          match format_1f rise with
          | inl e => Raise cruise e
          | inr _ => Ok cruise results
          end
      end
  end.

Fixpoint analyse_all (tunings : list Tuning)
  : exn + list (tuning_name * SimResult) :=
  match tunings with
  | [] => inr []
  | tuning :: rest =>
      match analyse tuning with
      | Raise _ e => inl e
      | Ok _ results =>
          match analyse_all rest with
          | inl e => inl e
          | inr all_results => inr ((name tuning, results) :: all_results)
          end
      end
  end.

Definition performance_analysis : exn + list (tuning_name * SimResult) :=
  analyse_all tuning_sets.

(** A row of a run that stays saturated and far from the set speed: full
    throttle, a speed below 10 and below the rise threshold. *)
Definition row_saturated (threshold : float) (r : Row) : bool :=
  (row_throttle r =? 1) && (row_speed r <? 10)
  && negb (threshold <=? row_speed r).

(** The run of a tuning over the default grid: every row as above, a
    non-empty log, and an integral that is zero at the end. *)
Definition never_rises (tuning : Tuning) : bool :=
  let cruise := tuned tuning in
  match run_rows (reset_states cruise) (RefConst (v_desired cruise)) None
                 (map (arange_item (py 0) (dt cruise))
                      (seq 0 (Z.to_nat 10000))) with
  | Ok cruise' rows =>
      forallb (row_saturated (0.9 * val (v_desired cruise'))) rows
      && (val (error_integral cruise') =? 0)
      && (Z.of_nat (length rows) =? 10000)%Z
  | Raise _ _ => false
  end.

End B64.

(** ** Arithmetic helpers *)

Lemma Qle_bool_false (x y : Q) : Qle_bool x y = false -> y < x.
Proof.
  intro H. apply Qnot_le_lt. intro Hle.
  apply Qle_bool_iff in Hle. congruence.
Qed.

Lemma Qeq_bool_false (x y : Q) : Qeq_bool x y = false -> ~ x == y.
Proof. intros H Heq. apply Qeq_bool_iff in Heq. congruence. Qed.

(** Turns the boolean tests of the program into order facts. *)
Ltac bool_to_order :=
  repeat match goal with
  | H : Qle_bool _ _ = true |- _ => apply Qle_bool_iff in H
  | H : Qle_bool _ _ = false |- _ => apply Qle_bool_false in H
  | H : Qeq_bool _ _ = true |- _ => apply Qeq_bool_iff in H
  | H : Qeq_bool _ _ = false |- _ => apply Qeq_bool_false in H
  end.

Ltac case_tests :=
  repeat match goal with
  | |- context [Qle_bool ?x ?y] => destruct (Qle_bool x y) eqn:?
  | |- context [Qeq_bool ?x ?y] => destruct (Qeq_bool x y) eqn:?
  end; bool_to_order.

Lemma py_div_nonzero (x y : Q) : ~ y == 0 -> py_div x y = Some (x / y).
Proof.
  intro Hy. unfold py_div. case_tests; [contradiction | reflexivity].
Qed.

Lemma py_div_inv (x y q : Q) : py_div x y = Some q -> ~ y == 0 /\ q = x / y.
Proof.
  unfold py_div. case_tests; [discriminate |].
  intro H. injection H as <-. split; [assumption | reflexivity].
Qed.

(** ** Clipping *)

Lemma np_maximum_cases (x y : Q) :
  (y <= x /\ np_maximum x y = x) \/ (x < y /\ np_maximum x y = y).
Proof. unfold np_maximum. case_tests; [left | right]; split; auto. Qed.

Lemma np_minimum_cases (x y : Q) :
  (x <= y /\ np_minimum x y = x) \/ (y < x /\ np_minimum x y = y).
Proof. unfold np_minimum. case_tests; [left | right]; split; auto. Qed.

(** Splits a goal about [np_clip a lo hi] into the cases of its two tests. *)
Ltac clip_cases a lo hi :=
  unfold np_clip;
  destruct (np_maximum_cases a lo) as [[? ->] | [? ->]];
  match goal with
  | |- context [np_minimum ?x hi] =>
      destruct (np_minimum_cases x hi) as [[? ->] | [? ->]]
  end.

Lemma np_clip_inside (a lo hi : Q) : lo < a -> a < hi -> np_clip a lo hi = a.
Proof. intros H1 H2. clip_cases a lo hi; try reflexivity; lra. Qed.

(** The test of the anti-windup branch, made on the clipped command, fires
    as soon as the raw command is at or beyond a bound. *)
Lemma clipped_test_of_raw (a lo hi : Q) :
  hi <= a \/ a <= lo ->
  Qle_bool hi (np_clip a lo hi) || Qle_bool (np_clip a lo hi) lo = true.
Proof.
  intro H. apply orb_true_iff. rewrite !Qle_bool_iff.
  clip_cases a lo hi; lra.
Qed.

Lemma clipped_test_inside (a lo hi : Q) :
  lo < a -> a < hi ->
  Qle_bool hi (np_clip a lo hi) || Qle_bool (np_clip a lo hi) lo = false.
Proof.
  intros H1 H2. rewrite (np_clip_inside a lo hi H1 H2).
  apply orb_false_iff. split.
  - destruct (Qle_bool hi a) eqn:E; [bool_to_order; lra | reflexivity].
  - destruct (Qle_bool a lo) eqn:E; [bool_to_order; lra | reflexivity].
Qed.

(** ** The controller call, unfolded *)

Lemma pid_controller_inv (self self' : System) (error u : Q) :
  pid_controller self error = Ok self' u ->
  ~ dt self == 0 /\
  u = np_clip (u_raw self error) (throttle_min self) (throttle_max self) /\
  self' = (if Qle_bool (throttle_max self) u || Qle_bool u (throttle_min self)
           then pid_rolled_back self error
           else pid_integrated self error).
Proof.
  unfold pid_controller.
  destruct (py_div _ _) as [d |] eqn:Hd; [| discriminate].
  cbn in Hd. apply py_div_inv in Hd as [Hdt ->].
  cbn. intro H. injection H as <- <-.
  split; [exact Hdt |]. split; reflexivity.
Qed.

Lemma pid_controller_returns (self : System) (error : Q) :
  ~ dt self == 0 ->
  exists self' u, pid_controller self error = Ok self' u.
Proof.
  intro Hdt. unfold pid_controller. cbn.
  rewrite (py_div_nonzero _ _ Hdt). eauto.
Qed.


Lemma engine_model_inv (self self' : System) (u F : Q) :
  engine_model self u = Ok self' F ->
  ~ tau_engine self == 0 /\
  F = engine_state self
      + (Kv self * u - engine_state self) * dt self / tau_engine self /\
  self' = set_engine_state self F.
Proof.
  unfold engine_model.
  destruct (py_div _ _) as [d |] eqn:Hd; [| discriminate].
  apply py_div_inv in Hd as [Htau ->].
  cbn. intro H. injection H as <- <-. auto.
Qed.

Lemma vehicle_model_inv (self self' : System) (F D v : Q) :
  vehicle_model self F D = Ok self' v ->
  ~ m self == 0 /\
  v = v_current self + (F - b self * v_current self + D) / m self * dt self /\
  self' = set_v_current self v.
Proof.
  unfold vehicle_model.
  destruct (py_div _ _) as [a |] eqn:Ha; [| discriminate].
  apply py_div_inv in Ha as [Hm ->].
  cbn. intro H. injection H as <- <-. auto.
Qed.

(** ** Frame: what the blocks leave alone *)

(** Closes [same_params] goals between an object and an update of it. *)
Ltac params_done := unfold same_params; cbn; repeat split; reflexivity.

Lemma same_params_refl (s : System) : same_params s s.
Proof. unfold same_params. repeat split. Qed.

Lemma same_params_trans (s1 s2 s3 : System) :
  same_params s1 s2 -> same_params s2 s3 -> same_params s1 s3.
Proof. unfold same_params. intuition congruence. Qed.

Lemma pid_controller_params (self self' : System) (error u : Q) :
  pid_controller self error = Ok self' u -> same_params self self'.
Proof.
  intro H. apply pid_controller_inv in H as (_ & _ & ->).
  destruct (_ || _); params_done.
Qed.

Lemma engine_model_params (self self' : System) (u F : Q) :
  engine_model self u = Ok self' F -> same_params self self'.
Proof.
  intro H. apply engine_model_inv in H as (_ & _ & ->).
  params_done.
Qed.

Lemma vehicle_model_params (self self' : System) (F D v : Q) :
  vehicle_model self F D = Ok self' v -> same_params self self'.
Proof.
  intro H. apply vehicle_model_inv in H as (_ & _ & ->).
  params_done.
Qed.

(** ** Indexed writes into the log arrays *)

Lemma splice_cons (x : Q) (a : list Q) (k : nat) (vs : list Q) :
  splice (x :: a) (S k) vs = x :: splice a k vs.
Proof. reflexivity. Qed.

Lemma splice_length (a : list Q) (k : nat) (vs : list Q) :
  (k + length vs <= length a)%nat -> length (splice a k vs) = length a.
Proof.
  intro H. unfold splice.
  rewrite !length_app, length_firstn, length_skipn. lia.
Qed.

Lemma setitem_splice (a : list Q) (i : nat) (v : Q) :
  (i < length a)%nat -> setitem a i v = Some (splice a i [v]).
Proof.
  revert i. induction a as [| x a IH]; intros i Hi; cbn in Hi; [lia |].
  destruct i as [| i].
  - reflexivity.
  - cbn [setitem]. rewrite IH by lia. rewrite splice_cons. reflexivity.
Qed.

Lemma splice_next (a : list Q) (k : nat) (v : Q) (vs : list Q) :
  (k + S (length vs) <= length a)%nat ->
  splice (splice a k [v]) (S k) vs = splice a k (v :: vs).
Proof.
  revert a. induction k as [| k IH]; intros a H.
  - destruct a as [| x a]; cbn in H; [lia |]. reflexivity.
  - destruct a as [| x a]; cbn in H; [lia |].
    rewrite !splice_cons. f_equal. apply IH. lia.
Qed.

Lemma splice_all (n : nat) (vs : list Q) :
  length vs = n -> splice (np_zeros n) 0 vs = vs.
Proof.
  intro H. unfold splice, np_zeros. cbn [firstn Nat.add app].
  rewrite skipn_all2 by (rewrite repeat_length; lia).
  apply app_nil_r.
Qed.

Lemma log_row_writes (logs : Logs) (n i : nat) (r : Row) :
  logs_length logs n -> (i < n)%nat ->
  log_row logs i r = Some (write_rows logs i [r]).
Proof.
  intros (H1 & H2 & H3 & H4 & H5) Hi. unfold log_row.
  rewrite !setitem_splice by lia. reflexivity.
Qed.

Lemma write_rows_length (logs : Logs) (n k : nat) (rows : list Row) :
  logs_length logs n -> (k + length rows <= n)%nat ->
  logs_length (write_rows logs k rows) n.
Proof.
  intros (H1 & H2 & H3 & H4 & H5) Hk. unfold logs_length, write_rows. cbn.
  rewrite !splice_length by (rewrite length_map; lia). auto.
Qed.

Lemma write_rows_next (logs : Logs) (n k : nat) (r : Row) (rows : list Row) :
  logs_length logs n -> (k + S (length rows) <= n)%nat ->
  write_rows (write_rows logs k [r]) (S k) rows = write_rows logs k (r :: rows).
Proof.
  intros (H1 & H2 & H3 & H4 & H5) Hk. unfold write_rows. cbn.
  f_equal; apply splice_next; rewrite length_map; lia.
Qed.

(** ** The loop computes the rows of [run_rows] *)

Lemma run_rows_length (ref : reference) (ds : option (list (Q -> Q)))
    (ts : list Q) :
  forall (self self' : System) (rows : list Row),
    run_rows self ref ds ts = Ok self' rows -> length rows = length ts.
Proof.
  induction ts as [| t ts IH]; intros self self' rows H; cbn in H.
  - injection H as _ <-. reflexivity.
  - destruct (simulate_body self ref ds t) as [s1 r | s1 e]; cbn in H;
      [| discriminate].
    destruct (run_rows s1 ref ds ts) as [s2 rs | s2 e] eqn:E; cbn in H;
      [| discriminate].
    injection H as _ <-. cbn. f_equal. eapply IH. exact E.
Qed.

Lemma simulate_loop_rows (ref : reference) (ds : option (list (Q -> Q)))
    (n : nat) (ts : list Q) :
  forall (self : System) (logs : Logs) (k : nat),
    logs_length logs n -> (k + length ts <= n)%nat ->
    simulate_loop self ref ds logs (enumerate_from k ts) =
    call (self', rows) <- run_rows self ref ds ts ;;
    Ok self' (write_rows logs k rows).
Proof.
  induction ts as [| t ts IH]; intros self logs k Hlen Hk.
  - cbn. unfold write_rows, splice. cbn.
    rewrite Nat.add_0_r, !firstn_skipn. destruct logs; reflexivity.
  - cbn [enumerate_from simulate_loop run_rows]. cbn in Hk.
    destruct (simulate_body self ref ds t) as [s1 r | s1 e]; cbn [bind];
      [| reflexivity].
    rewrite (log_row_writes logs n k r Hlen) by lia.
    rewrite (IH s1 (write_rows logs k [r]) (S k)); cycle 1.
    { apply write_rows_length; [exact Hlen | cbn; lia]. }
    { lia. }
    destruct (run_rows s1 ref ds ts) as [s2 rs | s2 e] eqn:E; cbn [bind];
      [| reflexivity].
    apply run_rows_length in E.
    rewrite (write_rows_next logs n) by (auto; lia). reflexivity.
Qed.

(** [simulate] is: build the grid, reset, run the body over the grid in order
    and return the columns of the rows. *)
Theorem simulate_rows (self : System) (ref : option reference)
    (ds : option (list (Q -> Q))) :
  simulate self ref ds =
  match np_arange 0 (T_sim self) (dt self) with
  | None => Raise self ZeroDivisionError
  | Some time =>
      call (self', rows) <-
        run_rows (reset_states self) (reference_or_default self ref) ds time ;;
      Ok self' (result_of_rows time rows)
  end.
Proof.
  unfold simulate. fold (reference_or_default self ref).
  destruct (np_arange 0 (T_sim self) (dt self)) as [time |]; [| reflexivity].
  unfold enumerate.
  rewrite (simulate_loop_rows _ _ (length time)); cycle 1.
  { unfold logs_length, np_zeros. cbn. rewrite !repeat_length. auto. }
  { lia. }
  destruct (run_rows _ _ _ _) as [s' rows | s' e] eqn:E; cbn [bind];
    [| reflexivity].
  apply run_rows_length in E.
  unfold write_rows, result_of_rows.
  cbn [speed_log throttle_log error_log force_log reference_log].
  rewrite !splice_all by (rewrite length_map; exact E). reflexivity.
Qed.

(** ** One pass through the loop body *)

Lemma simulate_body_inv (self self' : System) (ref : reference)
    (ds : option (list (Q -> Q))) (t : Q) (r : Row) :
  simulate_body self ref ds t = Ok self' r ->
  exists s1 s2 : System,
    row_reference r = eval_reference ref t /\
    row_error r = eval_reference ref t - v_current self /\
    pid_controller self (row_error r) = Ok s1 (row_throttle r) /\
    engine_model s1 (row_throttle r) = Ok s2 (row_force r) /\
    vehicle_model s2 (row_force r) (disturbance_force ds t)
    = Ok self' (row_speed r).
Proof.
  unfold simulate_body.
  destruct (pid_controller _ _) as [s1 u | s1 e] eqn:E1; cbn [bind];
    [| discriminate].
  destruct (engine_model s1 u) as [s2 F | s2 e] eqn:E2; cbn [bind];
    [| discriminate].
  destruct (vehicle_model s2 F _) as [s3 v | s3 e] eqn:E3; cbn [bind];
    [| discriminate].
  intro H. injection H as <- <-. cbn.
  exists s1, s2. auto.
Qed.

Lemma simulate_body_params (self self' : System) (ref : reference)
    (ds : option (list (Q -> Q))) (t : Q) (r : Row) :
  simulate_body self ref ds t = Ok self' r -> same_params self self'.
Proof.
  intro H. apply simulate_body_inv in H as (s1 & s2 & _ & _ & H1 & H2 & H3).
  apply pid_controller_params in H1. apply engine_model_params in H2.
  apply vehicle_model_params in H3.
  eauto using same_params_trans.
Qed.

(** With non-zero [dt], [tau_engine] and [m] the body returns. *)
Lemma simulate_body_returns (self : System) (ref : reference)
    (ds : option (list (Q -> Q))) (t : Q) :
  ~ dt self == 0 -> ~ tau_engine self == 0 -> ~ m self == 0 ->
  exists self' r, simulate_body self ref ds t = Ok self' r.
Proof.
  intros Hdt Htau Hm. unfold simulate_body.
  destruct (pid_controller_returns self (eval_reference ref t - v_current self)
              Hdt) as (s1 & u & E1).
  rewrite E1. cbn [bind].
  pose proof (pid_controller_params _ _ _ _ E1) as P1.
  unfold engine_model.
  rewrite py_div_nonzero
    by (destruct P1 as (_ & _ & _ & <- & _); exact Htau).
  cbn [bind]. unfold vehicle_model. cbn.
  rewrite py_div_nonzero
    by (destruct P1 as (<- & _); exact Hm).
  cbn [bind]. eauto.
Qed.

Lemma run_rows_params (ref : reference) (ds : option (list (Q -> Q)))
    (ts : list Q) :
  forall (self self' : System) (rows : list Row),
    run_rows self ref ds ts = Ok self' rows -> same_params self self'.
Proof.
  induction ts as [| t ts IH]; intros self self' rows H; cbn in H.
  - injection H as <- _. apply same_params_refl.
  - destruct (simulate_body self ref ds t) as [s1 r | s1 e] eqn:E1;
      cbn in H; [| discriminate].
    destruct (run_rows s1 ref ds ts) as [s2 rs | s2 e] eqn:E2; cbn in H;
      [| discriminate].
    injection H as <- _.
    apply simulate_body_params in E1. apply IH in E2.
    eauto using same_params_trans.
Qed.

Lemma run_rows_returns (ref : reference) (ds : option (list (Q -> Q)))
    (ts : list Q) :
  forall self : System,
    ~ dt self == 0 -> ~ tau_engine self == 0 -> ~ m self == 0 ->
    exists self' rows, run_rows self ref ds ts = Ok self' rows.
Proof.
  induction ts as [| t ts IH]; intros self Hdt Htau Hm; cbn.
  - eauto.
  - destruct (simulate_body_returns self ref ds t Hdt Htau Hm)
      as (s1 & r & E1).
    rewrite E1. cbn [bind].
    pose proof (simulate_body_params _ _ _ _ _ _ E1)
      as (Em & _ & _ & Etau & _ & _ & _ & _ & _ & _ & Edt & _).
    destruct (IH s1) as (s2 & rs & E2);
      [rewrite <- Edt | rewrite <- Etau | rewrite <- Em |]; auto.
    rewrite E2. cbn [bind]. eauto.
Qed.

(** Decides an order fact between two numerals. *)
Ltac numerals := vm_compute; solve [reflexivity | discriminate].

(** ** The saturated controller step *)

Lemma pid_controller_saturated (self self' : System) (error u : Q) :
  pid_controller self error = Ok self' u ->
  saturated self error ->
  self' = pid_rolled_back self error.
Proof.
  intros H Hsat. apply pid_controller_inv in H as (_ & -> & ->).
  rewrite clipped_test_of_raw by exact Hsat. reflexivity.
Qed.

(** ** C3: the unsaturated controller step *)

(** C3.  With [dt > 0] and a raw command strictly between the bounds, the
    call returns [Kp*e + Ki*(I + e*dt) + Kd*(e - prev)/dt] and leaves
    [error_integral = I + e*dt] and [error_prev = e], where [I] and [prev]
    are the values before the call. *)
Theorem pid_unsaturated (self : System) (e : Q) :
  0 < dt self ->
  throttle_min self < u_raw self e ->
  u_raw self e < throttle_max self ->
  exists self',
    pid_controller self e
    = Ok self' (Kp self * e
                + Ki self * (error_integral self + e * dt self)
                + Kd self * (e - error_prev self) / dt self) /\
    error_integral self' = error_integral self + e * dt self /\
    error_prev self' = e.
Proof.
  intros Hdt Hlo Hhi.
  destruct (pid_controller_returns self e) as (s' & u & E); [lra |].
  exists s'. pose proof (pid_controller_inv _ _ _ _ E) as (_ & Hu & Hs).
  rewrite (np_clip_inside _ _ _ Hlo Hhi) in Hu. subst u.
  rewrite <- (np_clip_inside _ _ _ Hlo Hhi) in Hs at 1 2.
  rewrite (clipped_test_inside _ _ _ Hlo Hhi) in Hs. subst s'.
  split; [exact E |]. split; reflexivity.
Qed.

Lemma pid_unsaturated_witness :
  exists self',
    pid_controller init (1 # 10000)
    = Ok self' (800 * (1 # 10000)
                + 40 * (0 + (1 # 10000) * (1 # 100))
                + 40 * ((1 # 10000) - 0) / (1 # 100)) /\
    error_integral self' = 0 + (1 # 10000) * (1 # 100) /\
    error_prev self' = 1 # 10000.
Proof.
  apply (pid_unsaturated init (1 # 10000)); numerals.
Defined.

(** ** C6: the actuator update *)

(** C6.  With [tau_engine > 0], [engine_model] computes
    [x + (Kv*u - x)*dt/tau_engine] from the previous engine state [x], stores
    it as the new [engine_state] (nothing else changes) and returns it. *)
Theorem engine_model_update (self : System) (u : Q) :
  0 < tau_engine self ->
  let x := engine_state self in
  let x' := x + (Kv self * u - x) * dt self / tau_engine self in
  engine_model self u = Ok (set_engine_state self x') x' /\
  engine_state (set_engine_state self x') = x'.
Proof.
  intros Htau x x'. split; [| reflexivity].
  unfold engine_model. rewrite py_div_nonzero by lra. reflexivity.
Qed.

Lemma engine_model_update_witness :
  engine_model init 1
  = Ok (set_engine_state init (0 + (500 * 1 - 0) * (1 # 100) / (1 # 2)))
       (0 + (500 * 1 - 0) * (1 # 100) / (1 # 2)) /\
  engine_state
    (set_engine_state init (0 + (500 * 1 - 0) * (1 # 100) / (1 # 2)))
  = 0 + (500 * 1 - 0) * (1 # 100) / (1 # 2).
Proof.
  apply (engine_model_update init 1). numerals.
Defined.

(** ** C7: the plant update *)

(** C7.  With [m > 0], [vehicle_model] computes [v + ((F - b*v + D)/m)*dt]
    from the previous velocity [v], stores it as the new [v_current]
    (nothing else changes) and returns it. *)
Theorem vehicle_model_update (self : System) (F D : Q) :
  0 < m self ->
  let v := v_current self in
  let v' := v + ((F - b self * v + D) / m self) * dt self in
  vehicle_model self F D = Ok (set_v_current self v') v' /\
  v_current (set_v_current self v') = v'.
Proof.
  intros Hm v v'. split; [| reflexivity].
  unfold vehicle_model. rewrite py_div_nonzero by lra. reflexivity.
Qed.

Lemma vehicle_model_update_witness :
  vehicle_model init 10 (-5)
  = Ok (set_v_current init (0 + ((10 - 50 * 0 + -5) / 1000) * (1 # 100)))
       (0 + ((10 - 50 * 0 + -5) / 1000) * (1 # 100)) /\
  v_current
    (set_v_current init (0 + ((10 - 50 * 0 + -5) / 1000) * (1 # 100)))
  = 0 + ((10 - 50 * 0 + -5) / 1000) * (1 # 100).
Proof.
  apply (vehicle_model_update init 10 (-5)). numerals.
Defined.

(** ** C4: the time grid and the number of records *)

Lemma np_arange_grid (self : System) :
  ~ dt self == 0 ->
  np_arange 0 (T_sim self) (dt self) = Some (time_grid self).
Proof.
  intro Hdt. unfold np_arange.
  destruct (Qeq_bool (dt self) 0) eqn:E; bool_to_order; [contradiction |].
  unfold time_grid, arange_len, grid_size.
  assert (Hq : (T_sim self - 0) / dt self == T_sim self / dt self)
    by (field; exact Hdt).
  rewrite Hq. reflexivity.
Qed.

Lemma np_arange_zero_step (start stop step : Q) :
  step == 0 -> np_arange start stop step = None.
Proof.
  intro H. unfold np_arange.
  destruct (Qeq_bool step 0) eqn:E; bool_to_order;
    [reflexivity | contradiction].
Qed.

(** The run of [simulate] in terms of the grid: shared by the claims about
    whole runs. *)
Lemma simulate_on_grid (self : System) (ref : option reference)
    (ds : option (list (Q -> Q))) :
  ~ dt self == 0 ->
  simulate self ref ds =
  call (self', rows) <-
    run_rows (reset_states self) (reference_or_default self ref) ds
             (time_grid self) ;;
  Ok self' (result_of_rows (time_grid self) rows).
Proof.
  intro Hdt. rewrite simulate_rows, (np_arange_grid self Hdt). reflexivity.
Qed.

Lemma simulate_ok_inv (self self' : System) (ref : option reference)
    (ds : option (list (Q -> Q))) (res : SimResult) :
  simulate self ref ds = Ok self' res ->
  ~ dt self == 0 /\
  exists rows,
    run_rows (reset_states self) (reference_or_default self ref) ds
             (time_grid self) = Ok self' rows /\
    res = result_of_rows (time_grid self) rows.
Proof.
  intro H.
  assert (Hdt : ~ dt self == 0).
  { intro Hz. rewrite simulate_rows, (np_arange_zero_step _ _ _ Hz) in H.
    discriminate. }
  split; [exact Hdt |].
  rewrite (simulate_on_grid self ref ds Hdt) in H.
  destruct (run_rows _ _ _ _) as [s' rows | s' e]; cbn in H; [| discriminate].
  injection H as <- <-. exists rows. split; reflexivity.
Qed.

(** C4, as stated, fails: with [T_sim = 1] and [dt = 0.3] the run has 4
    records (times 0, 0.3, 0.6, 0.9) while [floor(T_sim/dt)] is 3. *)
Lemma record_count_is_not_floor :
  0 < dt coarse_system /\ 0 < T_sim coarse_system /\
  Qfloor (T_sim coarse_system / dt coarse_system) = 3%Z /\
  exists self' res,
    simulate coarse_system None None = Ok self' res /\
    length (r_time res) = 4%nat /\
    length (r_speed res) = 4%nat /\
    length (r_time res) <> Z.to_nat (Qfloor (T_sim coarse_system
                                              / dt coarse_system)).
Proof.
  split; [numerals |]. split; [numerals |]. split; [reflexivity |].
  destruct (simulate coarse_system None None) as [s' res | s' e] eqn:E;
    [| vm_compute in E; discriminate].
  exists s', res. split; [reflexivity |].
  vm_compute in E. injection E as _ <-.
  split; [reflexivity |]. split; [reflexivity |]. cbn. discriminate.
Qed.

(** ** C5: configurations that break the documented invariants *)

(** C5, as stated, fails: a configuration with [m < 0] and
    [throttle_min > throttle_max] is simulated without any error; three
    steps run and the state is changed. *)
Lemma invalid_config_is_simulated :
  invalid_config invalid_system /\
  exists self' res,
    simulate invalid_system None None = Ok self' res /\
    length (r_speed res) = 3%nat /\
    ~ v_current self' == v_current invalid_system.
Proof.
  split; [left; numerals |].
  destruct (simulate invalid_system None None) as [s' res | s' e] eqn:E;
    [| vm_compute in E; discriminate].
  exists s', res. split; [reflexivity |].
  vm_compute in E. injection E as <- <-.
  split; [reflexivity | numerals].
Qed.

(** ** C8: runs are reproducible *)

Lemma reset_states_same (s1 s2 : System) :
  same_params s1 s2 -> reset_states s1 = reset_states s2.
Proof.
  destruct s1, s2. unfold same_params, reset_states. cbn.
  intros (-> & -> & -> & -> & -> & -> & -> & -> & -> & -> & -> & ->).
  reflexivity.
Qed.

Lemma simulate_same_params (s1 s2 : System) (ref : option reference)
    (ds : option (list (Q -> Q))) :
  same_params s1 s2 ->
  observable (simulate s1 ref ds) = observable (simulate s2 ref ds) /\
  forall s' res, simulate s1 ref ds = Ok s' res ->
                 simulate s2 ref ds = Ok s' res.
Proof.
  intro P. pose proof (reset_states_same s1 s2 P) as R.
  destruct P as (_ & _ & _ & _ & Ev & _ & _ & _ & _ & _ & Edt & ET).
  rewrite !simulate_rows.
  assert (Eref : reference_or_default s1 ref = reference_or_default s2 ref)
    by (destruct ref; cbn; congruence).
  rewrite <- Edt, <- ET, <- R, <- Eref.
  destruct (np_arange 0 (T_sim s1) (dt s1)) as [time |].
  - split; [reflexivity | auto].
  - split; [reflexivity | discriminate].
Qed.

Lemma simulate_params (self self' : System) (ref : option reference)
    (ds : option (list (Q -> Q))) (res : SimResult) :
  simulate self ref ds = Ok self' res -> same_params self self'.
Proof.
  intro H. apply simulate_ok_inv in H as (_ & rows & Hrun & _).
  apply run_rows_params in Hrun.
  apply same_params_trans with (reset_states self); [params_done | exact Hrun].
Qed.

(** C8.  Two runs on objects with the same parameters, the same reference
    and the same disturbances give the same result (or raise the same
    exception), whatever state the objects were left in; in particular a
    second run on the object left by a first run returns the same result and
    leaves the same object.  The reason is that a run starts its first step
    from [reset_states self], where every state attribute is zero. *)
Theorem simulate_deterministic (s1 s2 : System) (ref : option reference)
    (ds : option (list (Q -> Q))) :
  same_params s1 s2 ->
  observable (simulate s1 ref ds) = observable (simulate s2 ref ds) /\
  (forall s1' res,
      simulate s1 ref ds = Ok s1' res ->
      simulate s2 ref ds = Ok s1' res /\ simulate s1' ref ds = Ok s1' res) /\
  state_is_zero (reset_states s1) /\
  (forall s1' res,
      simulate s1 ref ds = Ok s1' res ->
      exists rows,
        run_rows (reset_states s1) (reference_or_default s1 ref) ds
                 (r_time res) = Ok s1' rows /\
        res = result_of_rows (r_time res) rows).
Proof.
  intro P. destruct (simulate_same_params s1 s2 ref ds P) as [Hobs Hok].
  split; [exact Hobs |]. split; [| split].
  - intros s1' res H. split; [apply Hok; exact H |].
    pose proof (simulate_params _ _ _ _ _ H) as P'.
    apply (proj2 (simulate_same_params s1 s1' ref ds P')). exact H.
  - unfold state_is_zero. cbn. repeat split.
  - intros s1' res H.
    apply simulate_ok_inv in H as (_ & rows & Hrun & ->).
    exists rows. split; [exact Hrun | reflexivity].
Qed.

Lemma simulate_deterministic_witness :
  observable (simulate small_system None None)
  = observable (simulate used_system None None) /\
  state_is_zero (reset_states small_system).
Proof.
  pose proof (simulate_deterministic small_system used_system None None
                ltac:(params_done)) as (H1 & _ & H3 & _).
  split; [exact H1 | exact H3].
Defined.

(** ** C9: the disturbance passed to the plant *)

Lemma fold_left_Qsum (fs : list (Q -> Q)) (t : Q) :
  forall acc : Q,
    fold_left (fun dist_force dist_func => dist_force + dist_func t) fs acc
    == acc + Qsum (map (fun f => f t) fs).
Proof.
  induction fs as [| f fs IH]; intro acc;
    unfold Qsum; cbn [fold_left map fold_right]; fold Qsum.
  - ring.
  - rewrite IH. unfold Qsum. ring.
Qed.

Lemma disturbance_force_sum (ds : option (list (Q -> Q))) (t : Q) :
  disturbance_force ds t == Qsum (map (fun f => f t) (disturbance_list ds)).
Proof.
  destruct ds as [[| f fs] |]; try reflexivity.
  unfold disturbance_force, disturbance_list.
  rewrite fold_left_Qsum. ring.
Qed.

Lemma simulate_body_plant (self self' : System) (ref : reference)
    (ds : option (list (Q -> Q))) (t : Q) (r : Row) :
  simulate_body self ref ds t = Ok self' r ->
  v_current self' = row_speed r /\
  row_speed r
  == v_current self
     + ((row_force r - b self * v_current self
         + Qsum (map (fun f => f t) (disturbance_list ds))) / m self)
       * dt self.
Proof.
  intro H. apply simulate_body_inv in H as (s1 & s2 & _ & _ & H1 & H2 & H3).
  apply pid_controller_inv in H1 as (_ & _ & E1).
  apply engine_model_inv in H2 as (_ & _ & E2).
  apply vehicle_model_inv in H3 as (_ & E3 & E4).
  assert (Hv : v_current s2 = v_current self /\ b s2 = b self /\
               m s2 = m self /\ dt s2 = dt self).
  { subst s2 s1. destruct (_ || _); cbn; auto. }
  destruct Hv as (Hv & Hb & Hm & Hdt).
  split; [subst self'; reflexivity |].
  rewrite E3, Hv, Hb, Hm, Hdt, (disturbance_force_sum ds t). reflexivity.
Qed.

Lemma run_rows_plant (s0 : System) (ref : reference)
    (ds : option (list (Q -> Q))) (ts : list Q) :
  forall (self self' : System) (rows : list Row),
    same_params s0 self ->
    run_rows self ref ds ts = Ok self' rows ->
    plant_steps s0 (disturbance_list ds) (v_current self) ts
                (map row_force rows) (map row_speed rows).
Proof.
  induction ts as [| t ts IH]; intros self self' rows P H; cbn in H.
  - injection H as _ <-. exact I.
  - destruct (simulate_body self ref ds t) as [s1 r | s1 e] eqn:E1;
      cbn in H; [| discriminate].
    destruct (run_rows s1 ref ds ts) as [s2 rs | s2 e] eqn:E2; cbn in H;
      [| discriminate].
    injection H as _ <-. cbn [map plant_steps].
    pose proof (simulate_body_plant _ _ _ _ _ _ E1) as [Hv Hstep].
    pose proof (simulate_body_params _ _ _ _ _ _ E1) as P1.
    split.
    + destruct P as (-> & -> & _ & _ & _ & _ & _ & _ & _ & _ & -> & _).
      exact Hstep.
    + rewrite <- Hv. apply (IH s1 s2); [| exact E2].
      eauto using same_params_trans.
Qed.

(** C9.  The disturbance force of a step is the sum of [f(t)] over the
    disturbance functions, zero for an absent or empty list; for the list
    [[f1; f2]] it is the sum of the forces of the lists [[f1]] and [[f2]];
    and in every result of a run each logged speed is the plant update of
    the previous speed (zero before the first step) under the logged engine
    force and exactly that sum at the step's grid time. *)
Theorem disturbance_superposition (self : System) (ref : option reference)
    (ds : option (list (Q -> Q))) :
  (forall t, disturbance_force None t = 0 /\
             disturbance_force (Some []) t = 0) /\
  (forall t, disturbance_force ds t
             == Qsum (map (fun f => f t) (disturbance_list ds))) /\
  (forall f1 f2 t,
      disturbance_force (Some [f1; f2]) t
      == disturbance_force (Some [f1]) t + disturbance_force (Some [f2]) t) /\
  (forall self' res,
      simulate self ref ds = Ok self' res ->
      plant_steps self (disturbance_list ds) 0
                  (r_time res) (r_force res) (r_speed res)).
Proof.
  split; [| split; [| split]].
  - intro t. split; reflexivity.
  - intro t. apply disturbance_force_sum.
  - intros f1 f2 t. cbn [disturbance_force fold_left]. ring.
  - intros self' res H.
    apply simulate_ok_inv in H as (_ & rows & Hrun & ->).
    unfold result_of_rows. cbn [r_time r_force r_speed].
    change 0 with (v_current (reset_states self)).
    eapply (run_rows_plant self); [| exact Hrun]. params_done.
Qed.

Lemma disturbance_superposition_witness :
  disturbance_force (Some [grade; wind]) (1 # 100)
  == disturbance_force (Some [grade]) (1 # 100)
     + disturbance_force (Some [wind]) (1 # 100) /\
  exists self' res,
    simulate small_system None (Some [grade; wind]) = Ok self' res /\
    plant_steps small_system [grade; wind] 0
                (r_time res) (r_force res) (r_speed res).
Proof.
  pose proof (disturbance_superposition small_system None
                (Some [grade; wind])) as (_ & _ & Hsup & Hrun).
  split; [apply Hsup |].
  destruct (simulate small_system None (Some [grade; wind]))
    as [s' res | s' e] eqn:E; [| vm_compute in E; discriminate].
  exists s', res. split; [reflexivity |]. apply (Hrun s' res). reflexivity.
Defined.

(** ** C10: the previous error *)

(** C10.  Every call of [pid_controller] that returns (it does whenever
    [dt] is not zero) leaves [error_prev] equal to the error it was given and
    touches no attribute besides [error_integral] and [error_prev]; when the
    command saturates, the object left is the one with the integral and the
    new previous error written, changed in [error_integral] only.  After
    [reset_states] the previous error is zero, so the first command of a
    run is the clipped [Kp*e0 + Ki*(0 + e0*dt) + Kd*(e0 - 0)/dt], with [e0]
    the first error, the reference at the first grid time minus zero. *)
Theorem previous_error_updated :
  (forall (self self' : System) (e u : Q),
      pid_controller self e = Ok self' u ->
      error_prev self' = e /\ pid_frame self self' /\
      (saturated self e ->
       self' = set_error_integral (pid_integrated self e)
                 (error_integral self + e * dt self - e * dt self))) /\
  (forall (self : System) (e : Q),
      ~ dt self == 0 -> exists self' u, pid_controller self e = Ok self' u) /\
  (forall self : System, error_prev (reset_states self) = 0) /\
  (forall (self self' : System) ref ds res (t0 : Q) (ts : list Q),
      simulate self ref ds = Ok self' res ->
      r_time res = t0 :: ts ->
      exists e0 : Q,
        e0 = eval_reference (reference_or_default self ref) t0 - 0 /\
        hd_error (r_error res) = Some e0 /\
        hd_error (r_throttle res)
        = Some (np_clip (Kp self * e0
                         + Ki self * (0 + e0 * dt self)
                         + Kd self * (e0 - 0) / dt self)
                        (throttle_min self) (throttle_max self))).
Proof.
  split; [| split; [| split]].
  - intros self self' e u H. split; [| split].
    + apply pid_controller_inv in H as (_ & _ & ->).
      destruct (_ || _); reflexivity.
    + apply pid_controller_inv in H as (_ & _ & ->).
      unfold pid_frame. destruct (_ || _); cbn;
        (split; [params_done | repeat split]).
    + intro Hsat. apply (pid_controller_saturated _ _ _ _ H Hsat).
  - intros self e. apply pid_controller_returns.
  - reflexivity.
  - intros self self' ref ds res t0 ts H Htime.
    apply simulate_ok_inv in H as (_ & rows & Hrun & ->).
    cbn [result_of_rows r_time] in Htime. rewrite Htime in Hrun.
    cbn [run_rows] in Hrun.
    destruct (simulate_body _ _ _ t0) as [s1 r | s1 e] eqn:E1;
      cbn [bind] in Hrun; [| discriminate].
    destruct (run_rows s1 _ _ ts) as [s2 rs | s2 e]; cbn [bind] in Hrun;
      [| discriminate].
    injection Hrun as _ <-.
    apply simulate_body_inv in E1 as (s1' & _ & _ & Herr & Hpid & _).
    apply pid_controller_inv in Hpid as (_ & Hu & _).
    exists (row_error r). split; [exact Herr |].
    split; [reflexivity |].
    unfold result_of_rows. cbn [r_throttle map hd_error].
    rewrite Hu. reflexivity.
Qed.

Lemma previous_error_updated_witness :
  (exists self' u,
      pid_controller wound_system 20 = Ok self' u /\ error_prev self' = 20) /\
  error_prev (reset_states used_system) = 0 /\
  exists self' res e0,
    simulate used_system (Some (RefFun (step_reference 20 30 (1 # 100)))) None
    = Ok self' res /\
    e0 = 20 - 0 /\
    hd_error (r_throttle res)
    = Some (np_clip (800 * e0 + 40 * (0 + e0 * (1 # 100))
                     + 40 * (e0 - 0) / (1 # 100)) 0 1).
Proof.
  destruct previous_error_updated as (Hprev & _ & Hreset & Hfirst).
  split; [| split].
  - destruct (pid_controller wound_system 20) as [s' u | s' e] eqn:E;
      [| vm_compute in E; discriminate].
    exists s', u. split; [reflexivity |]. apply (Hprev _ _ _ _ E).
  - apply Hreset.
  - destruct (simulate used_system
                (Some (RefFun (step_reference 20 30 (1 # 100)))) None)
      as [s' res | s' e] eqn:E; [| vm_compute in E; discriminate].
    destruct (Hfirst used_system s' _ None res (0 + 0 * (1 # 100))
                [0 + 1 * (1 # 100); 0 + 2 * (1 # 100)] E)
      as (e0 & He0 & _ & Hu).
    + vm_compute in E. injection E as _ <-. reflexivity.
    + exists s', res, e0. split; [reflexivity |].
      split; [exact He0 | exact Hu].
Defined.

(** ** Further properties of the engine *)

(** *** One pass through the body, attribute by attribute *)

Lemma simulate_body_state (self self' : System) (ref : reference)
    (ds : option (list (Q -> Q))) (t : Q) (r : Row) :
  simulate_body self ref ds t = Ok self' r ->
  let e := eval_reference ref t - v_current self in
  row_reference r = eval_reference ref t /\
  row_error r = e /\
  row_throttle r
  = np_clip (u_raw self e) (throttle_min self) (throttle_max self) /\
  row_force r
  = engine_state self
    + (Kv self * row_throttle r - engine_state self) * dt self
      / tau_engine self /\
  row_speed r
  = v_current self
    + (row_force r - b self * v_current self + disturbance_force ds t)
      / m self * dt self /\
  v_current self' = row_speed r /\
  engine_state self' = row_force r /\
  error_prev self' = e /\
  throttle self' = throttle self /\
  vehicle_state self' = vehicle_state self /\
  error_integral self'
  = (if Qle_bool (throttle_max self) (row_throttle r)
        || Qle_bool (row_throttle r) (throttle_min self)
     then error_integral self + e * dt self - e * dt self
     else error_integral self + e * dt self).
Proof.
  intros H e.
  apply simulate_body_inv in H as (s1 & s2 & Href & Herr & H1 & H2 & H3).
  fold e in Herr. rewrite Herr in H1.
  apply pid_controller_inv in H1 as (_ & Hu & E1).
  apply engine_model_inv in H2 as (_ & HF & E2).
  apply vehicle_model_inv in H3 as (_ & Hv & E3).
  assert (Hs1 : v_current s1 = v_current self /\
                engine_state s1 = engine_state self /\
                throttle s1 = throttle self /\
                vehicle_state s1 = vehicle_state self /\
                error_prev s1 = e /\
                error_integral s1
                = (if Qle_bool (throttle_max self) (row_throttle r)
                      || Qle_bool (row_throttle r) (throttle_min self)
                   then error_integral self + e * dt self - e * dt self
                   else error_integral self + e * dt self) /\
                same_params self s1).
  { subst s1. destruct (_ || _); cbn; repeat split. }
  destruct Hs1 as (V1 & X1 & T1 & S1 & P1 & I1 &
                   (Em & Eb & EKv & Etau & _ & _ & _ & _ & _ & _ & Edt & _)).
  rewrite X1, <- EKv, <- Edt, <- Etau in HF.
  subst s2. cbn in Hv, E3. rewrite V1, <- Eb, <- Em, <- Edt in Hv.
  subst self'. cbn.
  repeat split; try assumption; try congruence.
Qed.

(** *** The rows follow the wiring of the loop *)

Lemma run_rows_follow (s0 : System) (ref : reference)
    (ds : option (list (Q -> Q))) (ts : list Q) :
  forall (s s' : System) (rows : list Row),
    same_params s0 s ->
    run_rows s ref ds ts = Ok s' rows ->
    rows_follow s0 ref (v_current s) (engine_state s) ts rows.
Proof.
  induction ts as [| t ts IH]; intros s s' rows P H; cbn in H.
  - injection H as _ <-. exact I.
  - destruct (simulate_body s ref ds t) as [s1 r | s1 e] eqn:E1;
      cbn in H; [| discriminate].
    destruct (run_rows s1 ref ds ts) as [s2 rs | s2 e] eqn:E2; cbn in H;
      [| discriminate].
    injection H as _ <-. cbn [rows_follow].
    pose proof (simulate_body_params _ _ _ _ _ _ E1) as P1.
    pose proof (simulate_body_state _ _ _ _ _ _ E1)
      as (Href & Herr & _ & HF & _ & HV & HX & _).
    cbv zeta in Herr.
    destruct P as (Em & Eb & EKv & Etau & Evd & EKp & EKi & EKd & Emax
                   & Emin & Edt & ET).
    repeat split.
    + exact Href.
    + rewrite Href. exact Herr.
    + rewrite EKv, Edt, Etau. exact HF.
    + rewrite <- HV, <- HX. apply (IH s1 s2); [| exact E2].
      apply same_params_trans with s; [| exact P1].
      unfold same_params. repeat split; assumption.
Qed.

(** X5.  In the result of a run the columns are tied together as the loop
    wires them: row [i] holds the reference at grid time [t_i], its error is
    that reference minus the speed logged in row [i-1] (zero for the first
    row), not the speed of its own row, and its engine force is the lag
    update of the force of row [i-1] (zero at first) under its own command. *)
Theorem rows_follow_wiring (self self' : System) (ref : option reference)
    (ds : option (list (Q -> Q))) (res : SimResult) :
  simulate self ref ds = Ok self' res ->
  exists rows,
    res = result_of_rows (r_time res) rows /\
    rows_follow self (reference_or_default self ref) 0 0 (r_time res) rows.
Proof.
  intro H. apply simulate_ok_inv in H as (_ & rows & Hrun & ->).
  exists rows. split; [reflexivity |]. cbn [result_of_rows r_time].
  apply (run_rows_follow self _ ds _ (reset_states self) self' rows);
    [params_done | exact Hrun].
Qed.

Lemma rows_follow_wiring_witness :
  exists self' res rows,
    simulate used_system (Some (RefFun (step_reference 20 30 (1 # 100)))) None
    = Ok self' res /\
    res = result_of_rows (r_time res) rows /\
    rows_follow used_system (RefFun (step_reference 20 30 (1 # 100))) 0 0
                (r_time res) rows.
Proof.
  destruct (simulate used_system
              (Some (RefFun (step_reference 20 30 (1 # 100)))) None)
    as [s' res | s' e] eqn:E; [| vm_compute in E; discriminate].
  destruct (rows_follow_wiring used_system s' _ None res E)
    as (rows & H1 & H2).
  exists s', res, rows. split; [reflexivity |]. split; assumption.
Defined.

(** *** The object left by a run *)

Lemma last_cons_default (A : Type) (l : list A) :
  forall x d : A, last (x :: l) d = last l x.
Proof.
  induction l as [| y l IH]; intros x d.
  - reflexivity.
  - change (last (x :: y :: l) d) with (last (y :: l) d).
    rewrite (IH y d), (IH y x). reflexivity.
Qed.

Lemma run_rows_final (ref : reference) (ds : option (list (Q -> Q)))
    (ts : list Q) :
  forall (s s' : System) (rows : list Row),
    run_rows s ref ds ts = Ok s' rows ->
    v_current s' = last (map row_speed rows) (v_current s) /\
    engine_state s' = last (map row_force rows) (engine_state s) /\
    error_prev s' = last (map row_error rows) (error_prev s) /\
    throttle s' = throttle s /\
    vehicle_state s' = vehicle_state s.
Proof.
  induction ts as [| t ts IH]; intros s s' rows H; cbn in H.
  - injection H as <- <-. cbn. repeat split.
  - destruct (simulate_body s ref ds t) as [s1 r | s1 e] eqn:E1;
      cbn in H; [| discriminate].
    destruct (run_rows s1 ref ds ts) as [s2 rs | s2 e] eqn:E2; cbn in H;
      [| discriminate].
    injection H as <- <-. cbn [map].
    pose proof (simulate_body_state _ _ _ _ _ _ E1)
      as (_ & Herr & _ & _ & _ & HV & HX & HP & HT & HS & _).
    cbv zeta in Herr, HP.
    destruct (IH _ _ _ E2) as (A1 & A2 & A3 & A4 & A5).
    rewrite !last_cons_default.
    rewrite A1, A2, A3, A4, A5, HV, HX, HP, HT, HS, Herr.
    repeat split.
Qed.

(** X6.  After a run that returns, the object keeps its parameters, holds
    the last logged speed, engine force and error in [v_current],
    [engine_state] and [error_prev] (zero when the grid is empty), and its
    [throttle] and [vehicle_state] attributes are zero: the run resets them
    and never writes them again. *)
Theorem state_after_run (self self' : System) (ref : option reference)
    (ds : option (list (Q -> Q))) (res : SimResult) :
  simulate self ref ds = Ok self' res ->
  same_params self self' /\
  v_current self' = last (r_speed res) 0 /\
  engine_state self' = last (r_force res) 0 /\
  error_prev self' = last (r_error res) 0 /\
  throttle self' = 0 /\
  vehicle_state self' = 0.
Proof.
  intro H. split; [exact (simulate_params _ _ _ _ _ H) |].
  apply simulate_ok_inv in H as (_ & rows & Hrun & ->).
  apply run_rows_final in Hrun. exact Hrun.
Qed.

Lemma state_after_run_witness :
  exists self' res,
    simulate used_system None None = Ok self' res /\
    v_current self' = last (r_speed res) 0 /\
    throttle self' = 0 /\ vehicle_state self' = 0.
Proof.
  destruct (simulate used_system None None) as [s' res | s' e] eqn:E;
    [| vm_compute in E; discriminate].
  destruct (state_after_run used_system s' None None res E)
    as (_ & H1 & _ & _ & H2 & H3).
  exists s', res. repeat split; assumption.
Defined.

(** *** The only exception of a run *)





(** *** The wind disturbance *)

(** X11.  [wind_disturbance] never pushes the vehicle: its force is not
    positive whatever the sign of the wind speed, it is the same for a wind
    speed and its opposite, and it does not depend on the time. *)
Theorem wind_disturbance_opposes (wind_speed_ms t t' : Q) :
  wind_disturbance wind_speed_ms t <= 0 /\
  wind_disturbance (- wind_speed_ms) t == wind_disturbance wind_speed_ms t /\
  wind_disturbance wind_speed_ms t = wind_disturbance wind_speed_ms t'.
Proof.
  unfold wind_disturbance.
  assert (E : forall w : Q, w ^ 2 == w * w) by (intro w; reflexivity).
  split; [| split].
  - rewrite E. nra.
  - rewrite !E. ring.
  - reflexivity.
Qed.

(** * Properties in binary64 *)

Module B64Facts.

Import B64.

Local Open Scope float_scope.

(** ** Order facts of binary64 *)

Lemma ltb_leb (x y : float) : (x <? y) = true -> (x <=? y) = true.
Proof.
  rewrite FloatAxioms.ltb_spec, FloatAxioms.leb_spec. unfold SFltb, SFleb.
  destruct (SFcompare _ _) as [[] |]; congruence.
Qed.

Lemma eqb_leb (x y : float) : (x =? y) = true -> (x <=? y) = true.
Proof.
  rewrite FloatAxioms.eqb_spec, FloatAxioms.leb_spec. unfold SFeqb, SFleb.
  destruct (SFcompare _ _) as [[] |]; congruence.
Qed.

Lemma ltb_not_eqb (x y : float) : (x <? y) = true -> (x =? y) = false.
Proof.
  rewrite FloatAxioms.ltb_spec, FloatAxioms.eqb_spec. unfold SFltb, SFeqb.
  destruct (SFcompare _ _) as [[] |]; congruence.
Qed.

Lemma leb_refl (x : float) : is_nan x = false -> (x <=? x) = true.
Proof.
  unfold is_nan. intro H. apply eqb_leb.
  destruct (x =? x); [reflexivity | discriminate].
Qed.

(** ** Clipping *)

Lemma clip_nan (x lo hi : float) : is_nan x = true -> clip x lo hi = x.
Proof.
  intro H. unfold clip, npy_max, npy_min. rewrite H, H. reflexivity.
Qed.

Lemma clip_within (x lo hi : float) :
  is_nan x = false -> (lo <? hi) = true ->
  (lo <=? clip x lo hi) = true /\ (clip x lo hi <=? hi) = true.
Proof.
  intros Hx Hb. pose proof (ltb_leb _ _ Hb) as Hle.
  assert (Hlo : is_nan lo = false).
  { unfold is_nan. rewrite FloatAxioms.leb_spec in Hle. rewrite FloatAxioms.eqb_spec.
    unfold SFleb in Hle. unfold SFeqb.
    destruct (Prim2SF lo) as [[] | [] | | [] ? ?] eqn:E; cbn in *;
      try reflexivity; try discriminate;
      rewrite ?Z.compare_refl, ?Pos.compare_cont_refl; reflexivity. }
  assert (Hhi : is_nan hi = false).
  { unfold is_nan. rewrite FloatAxioms.leb_spec in Hle. rewrite FloatAxioms.eqb_spec.
    unfold SFleb in Hle. unfold SFeqb.
    destruct (Prim2SF lo) as [[] | [] | | [] ? ?];
      destruct (Prim2SF hi) as [[] | [] | | [] ? ?]; cbn in *;
      try reflexivity; try discriminate;
      rewrite ?Z.compare_refl, ?Pos.compare_cont_refl; reflexivity. }
  unfold clip, npy_max. rewrite Hx.
  destruct (lo <? x) eqn:E1; unfold npy_min.
  - rewrite Hx. destruct (x <? hi) eqn:E2.
    + split; apply ltb_leb; assumption.
    + split; [exact Hle | apply leb_refl; exact Hhi].
  - rewrite Hlo, Hb. split; [apply leb_refl; exact Hlo | exact Hle].
Qed.


(** ** The controller call, unfolded *)

Lemma num_div_inv (x y q : num) :
  num_div x y = Some q -> val q = val x / val y.
Proof.
  unfold num_div. destruct (_ && _); [discriminate |].
  intro H. injection H as <-. reflexivity.
Qed.

Lemma num_div_nonzero (x y : num) :
  (val y =? 0) = false ->
  num_div x y = Some (mkNum (val x / val y) (is_np x || is_np y)).
Proof.
  intro H. unfold num_div. rewrite H, andb_false_r. reflexivity.
Qed.

Lemma num_div_np (x y : num) :
  is_np x = true ->
  num_div x y = Some (mkNum (val x / val y) (is_np x || is_np y)).
Proof. intro H. unfold num_div. rewrite H. reflexivity. Qed.

Lemma pid_controller_inv_b64 (self self' : System) (error u : num) :
  pid_controller self error = Ok self' u ->
  val u = clip (raw_command self (val error))
               (val (throttle_min self)) (val (throttle_max self)) /\
  is_np u = true /\
  self' = (if (val (throttle_max self) <=? val u)
              || (val u <=? val (throttle_min self))
           then pid_rolled_back self error
           else pid_integrated self error).
Proof.
  unfold pid_controller.
  destruct (num_div _ _) as [d |] eqn:Hd; [| discriminate].
  apply num_div_inv in Hd. cbn in Hd.
  cbn. intro H. injection H as <- <-. cbn. rewrite Hd.
  split; [reflexivity |]. split; reflexivity.
Qed.

Lemma pid_controller_raises_b64 (self self' : System) (error : num) (e : exn) :
  pid_controller self error = Raise self' e ->
  e = ZeroDivisionError /\ (val (dt self) =? 0) = true /\
  is_np (dt self) = false.
Proof.
  unfold pid_controller. cbn.
  destruct (num_div _ _) eqn:Hd; [discriminate |].
  intro H. injection H as _ <-.
  unfold num_div in Hd. cbn in Hd.
  destruct (is_np (dt self)); [rewrite andb_false_r in Hd; discriminate |].
  destruct (val (dt self) =? 0); [auto | rewrite andb_false_r in Hd; discriminate].
Qed.

Lemma pid_controller_returns_b64 (self : System) (error : num) :
  (val (dt self) =? 0) = false ->
  exists self' u, pid_controller self error = Ok self' u.
Proof.
  intro Hdt. unfold pid_controller. cbn.
  rewrite num_div_nonzero by exact Hdt. eauto.
Qed.

(** ** Frame *)

Ltac params_done_b64 := unfold same_params; cbn; repeat split; reflexivity.

Lemma same_params_refl_b64 (s : System) : same_params s s.
Proof. unfold same_params. repeat split. Qed.

Lemma same_params_trans_b64 (s1 s2 s3 : System) :
  same_params s1 s2 -> same_params s2 s3 -> same_params s1 s3.
Proof. unfold same_params. intuition congruence. Qed.

Lemma pid_controller_params_b64 (self self' : System) (error u : num) :
  pid_controller self error = Ok self' u -> same_params self self'.
Proof.
  intro H. apply pid_controller_inv_b64 in H as (_ & _ & ->).
  destruct (_ || _); params_done_b64.
Qed.

(** ** One pass through the loop body *)

(** Solves "this operand is a NumPy scalar" from the kind of the command. *)
Ltac np_kind H :=
  cbn; rewrite H;
  repeat (rewrite orb_true_r || rewrite orb_true_l); reflexivity.

(** Inside the loop the command is a NumPy scalar, so neither the engine
    nor the vehicle division can raise: the body returns whenever the
    controller does. *)
Lemma simulate_body_inv_b64 (self self' : System) (ref : reference)
    (ds : option (list (num -> num))) (t : float) (r : Row) :
  simulate_body self ref ds t = Ok self' r ->
  exists s1 u error,
    error = num_sub (eval_reference ref (float64 t)) (v_current self) /\
    pid_controller self error = Ok s1 u /\
    row_error r = val error /\
    row_throttle r = val u /\
    row_reference r = val (eval_reference ref (float64 t)) /\
    same_params self self' /\
    error_integral self' = error_integral s1 /\
    error_prev self' = error_prev s1.
Proof.
  unfold simulate_body. intro H.
  set (error := num_sub (eval_reference ref (float64 t)) (v_current self)) in *.
  destruct (pid_controller self error) as [s1 u | s1 e] eqn:E1; cbn [bind] in H;
    [| discriminate].
  pose proof (pid_controller_inv_b64 _ _ _ _ E1) as (_ & Hnp & _).
  pose proof (pid_controller_params_b64 _ _ _ _ E1) as P1.
  unfold engine_model in H.
  rewrite num_div_np in H by np_kind Hnp.
  cbn [bind] in H. unfold vehicle_model in H.
  rewrite num_div_np in H by np_kind Hnp.
  cbn [bind] in H. injection H as <- <-. cbn.
  exists s1, u, error.
  split; [reflexivity |]. split; [exact E1 |].
  split; [reflexivity |]. split; [reflexivity |]. split; [reflexivity |].
  split; [eapply same_params_trans_b64; [exact P1 | params_done_b64] |].
  split; reflexivity.
Qed.

Lemma simulate_body_returns_b64 (self : System) (ref : reference)
    (ds : option (list (num -> num))) (t : float) :
  (val (dt self) =? 0) = false ->
  exists self' r, simulate_body self ref ds t = Ok self' r.
Proof.
  intro Hdt. unfold simulate_body.
  destruct (pid_controller_returns_b64 self
              (num_sub (eval_reference ref (float64 t)) (v_current self)) Hdt)
    as (s1 & u & E1).
  rewrite E1. cbn [bind].
  pose proof (pid_controller_inv_b64 _ _ _ _ E1) as (_ & Hnp & _).
  unfold engine_model.
  rewrite num_div_np by np_kind Hnp.
  cbn [bind]. unfold vehicle_model.
  rewrite num_div_np by np_kind Hnp.
  cbn [bind]. eauto.
Qed.

(** ** Indexed writes into the log arrays *)

Lemma splice_cons_b64 (x : float) (a : list float) (k : nat) (vs : list float) :
  splice (x :: a) (S k) vs = x :: splice a k vs.
Proof. reflexivity. Qed.

Lemma splice_length_b64 (a : list float) (k : nat) (vs : list float) :
  (k + length vs <= length a)%nat -> length (splice a k vs) = length a.
Proof.
  intro H. unfold splice.
  rewrite !length_app, length_firstn, length_skipn. lia.
Qed.

Lemma setitem_splice_b64 (a : list float) (i : nat) (v : float) :
  (i < length a)%nat -> setitem a i v = Some (splice a i [v]).
Proof.
  revert i. induction a as [| x a IH]; intros i Hi; cbn in Hi; [lia |].
  destruct i as [| i].
  - reflexivity.
  - cbn [setitem]. rewrite IH by lia. rewrite splice_cons_b64. reflexivity.
Qed.

Lemma splice_next_b64 (a : list float) (k : nat) (v : float) (vs : list float) :
  (k + S (length vs) <= length a)%nat ->
  splice (splice a k [v]) (S k) vs = splice a k (v :: vs).
Proof.
  revert a. induction k as [| k IH]; intros a H.
  - destruct a as [| x a]; cbn in H; [lia |]. reflexivity.
  - destruct a as [| x a]; cbn in H; [lia |].
    rewrite !splice_cons_b64. f_equal. apply IH. lia.
Qed.

Lemma splice_all_b64 (n : nat) (vs : list float) :
  length vs = n -> splice (np_zeros n) 0 vs = vs.
Proof.
  intro H. unfold splice, np_zeros. cbn [firstn Nat.add app].
  rewrite skipn_all2 by (rewrite repeat_length; lia).
  apply app_nil_r.
Qed.

Lemma log_row_writes_b64 (logs : Logs) (n i : nat) (r : Row) :
  logs_length logs n -> (i < n)%nat ->
  log_row logs i r = Some (write_rows logs i [r]).
Proof.
  intros (H1 & H2 & H3 & H4 & H5) Hi. unfold log_row.
  rewrite !setitem_splice_b64 by lia. reflexivity.
Qed.

Lemma write_rows_length_b64 (logs : Logs) (n k : nat) (rows : list Row) :
  logs_length logs n -> (k + length rows <= n)%nat ->
  logs_length (write_rows logs k rows) n.
Proof.
  intros (H1 & H2 & H3 & H4 & H5) Hk. unfold logs_length, write_rows. cbn.
  rewrite !splice_length_b64 by (rewrite length_map; lia). auto.
Qed.

Lemma write_rows_next_b64 (logs : Logs) (n k : nat) (r : Row) (rows : list Row) :
  logs_length logs n -> (k + S (length rows) <= n)%nat ->
  write_rows (write_rows logs k [r]) (S k) rows = write_rows logs k (r :: rows).
Proof.
  intros (H1 & H2 & H3 & H4 & H5) Hk. unfold write_rows. cbn.
  f_equal; apply splice_next_b64; rewrite length_map; lia.
Qed.

(** ** The loop computes the rows of [run_rows] *)

Lemma run_rows_length_b64 (ref : reference) (ds : option (list (num -> num)))
    (ts : list float) :
  forall (self self' : System) (rows : list Row),
    run_rows self ref ds ts = Ok self' rows -> length rows = length ts.
Proof.
  induction ts as [| t ts IH]; intros self self' rows H; cbn in H.
  - injection H as _ <-. reflexivity.
  - destruct (simulate_body self ref ds t) as [s1 r | s1 e]; cbn in H;
      [| discriminate].
    destruct (run_rows s1 ref ds ts) as [s2 rs | s2 e] eqn:E; cbn in H;
      [| discriminate].
    injection H as _ <-. cbn. f_equal. eapply IH. exact E.
Qed.

Lemma simulate_loop_rows_b64 (ref : reference) (ds : option (list (num -> num)))
    (n : nat) (ts : list float) :
  forall (self : System) (logs : Logs) (k : nat),
    logs_length logs n -> (k + length ts <= n)%nat ->
    simulate_loop self ref ds logs (enumerate_from k ts) =
    invoke (self', rows) <- run_rows self ref ds ts ;;
    Ok self' (write_rows logs k rows).
Proof.
  induction ts as [| t ts IH]; intros self logs k Hlen Hk.
  - cbn. unfold write_rows, splice. cbn.
    rewrite Nat.add_0_r, !firstn_skipn. destruct logs; reflexivity.
  - cbn [enumerate_from simulate_loop run_rows]. cbn in Hk.
    destruct (simulate_body self ref ds t) as [s1 r | s1 e]; cbn [bind];
      [| reflexivity].
    rewrite (log_row_writes_b64 logs n k r Hlen) by lia.
    rewrite (IH s1 (write_rows logs k [r]) (S k)); cycle 1.
    { apply write_rows_length_b64; [exact Hlen | cbn; lia]. }
    { lia. }
    destruct (run_rows s1 ref ds ts) as [s2 rs | s2 e] eqn:E; cbn [bind];
      [| reflexivity].
    apply run_rows_length_b64 in E.
    rewrite (write_rows_next_b64 logs n) by (auto; lia). reflexivity.
Qed.

(** [simulate] is: build the grid, reset, run the body over the grid in order
    and return the columns of the rows. *)
Lemma simulate_rows_b64 (self : System) (ref : option reference)
    (ds : option (list (num -> num))) :
  simulate self ref ds =
  match np_arange (py 0) (T_sim self) (dt self) with
  | inl e => Raise self e
  | inr time =>
      invoke (self', rows) <-
        run_rows (reset_states self) (reference_or_default self ref) ds time ;;
      Ok self' (result_of_rows time rows)
  end.
Proof.
  unfold simulate. fold (reference_or_default self ref).
  destruct (np_arange (py 0) (T_sim self) (dt self)) as [e | time];
    [reflexivity |].
  unfold enumerate.
  rewrite (simulate_loop_rows_b64 _ _ (length time)); cycle 1.
  { unfold logs_length, np_zeros. cbn. rewrite !repeat_length. auto. }
  { lia. }
  destruct (run_rows _ _ _ _) as [s' rows | s' e] eqn:E; cbn [bind];
    [| reflexivity].
  apply run_rows_length_b64 in E.
  unfold write_rows, result_of_rows.
  cbn [speed_log throttle_log error_log force_log reference_log].
  rewrite !splice_all_b64 by (rewrite length_map; exact E). reflexivity.
Qed.

Lemma run_rows_returns_b64 (ref : reference) (ds : option (list (num -> num)))
    (ts : list float) :
  forall self : System,
    (val (dt self) =? 0) = false ->
    exists self' rows, run_rows self ref ds ts = Ok self' rows.
Proof.
  induction ts as [| t ts IH]; intros self Hdt; cbn.
  - eauto.
  - destruct (simulate_body_returns_b64 self ref ds t Hdt) as (s1 & r & E1).
    rewrite E1. cbn [bind].
    pose proof (simulate_body_inv_b64 _ _ _ _ _ _ E1)
      as (_ & _ & _ & _ & _ & _ & _ & _ & P1 & _).
    destruct P1 as (_ & _ & _ & _ & _ & _ & _ & _ & _ & _ & Edt & _).
    destruct (IH s1) as (s2 & rs & E2); [rewrite <- Edt; exact Hdt |].
    rewrite E2. cbn [bind]. eauto.
Qed.

(** A property that the body gives every row, under an invariant of the
    object, holds of all rows of a run. *)
Lemma run_rows_forall (Inv : System -> Prop) (P : Row -> Prop)
    (ref : reference) (ds : option (list (num -> num))) :
  (forall s s' t r,
      Inv s -> simulate_body s ref ds t = Ok s' r -> Inv s' /\ P r) ->
  forall (ts : list float) (s s' : System) (rows : list Row),
    Inv s -> run_rows s ref ds ts = Ok s' rows -> Inv s' /\ Forall P rows.
Proof.
  intros Hbody ts.
  induction ts as [| t ts IH]; intros s s' rows Hs H; cbn in H.
  - injection H as <- <-. split; [exact Hs | constructor].
  - destruct (simulate_body s ref ds t) as [s1 r | s1 e] eqn:E1;
      cbn in H; [| discriminate].
    destruct (run_rows s1 ref ds ts) as [s2 rs | s2 e] eqn:E2; cbn in H;
      [| discriminate].
    injection H as <- <-.
    destruct (Hbody _ _ _ _ Hs E1) as [Hs1 Hr].
    destruct (IH _ _ _ Hs1 E2) as [Hs2 Hrs].
    split; [exact Hs2 | constructor; assumption].
Qed.

(** A run returns exactly when its grid can be built, and then with the
    columns of its rows. *)
Lemma simulate_ok_inv_b64 (self self' : System) (ref : option reference)
    (ds : option (list (num -> num))) (res : SimResult) :
  simulate self ref ds = Ok self' res ->
  exists time rows,
    np_arange (py 0) (T_sim self) (dt self) = inr time /\
    run_rows (reset_states self) (reference_or_default self ref) ds time
    = Ok self' rows /\
    res = result_of_rows time rows.
Proof.
  rewrite simulate_rows_b64.
  destruct (np_arange _ _ _) as [e | time]; [discriminate |].
  destruct (run_rows _ _ _ _) as [s' rows | s' e] eqn:E; cbn [bind];
    [| discriminate].
  intro H. injection H as <- <-. exists time, rows. auto.
Qed.

(** ** C1: the command is within its bounds, or nan *)

(** C1, as stated, fails.  A direct call on the default parameters with a
    previous error of [1e308] and an error of [1e306] overflows to
    [inf - inf]: the command returned is nan, which lies within no bounds.
    In a run of a configuration that meets every documented invariant
    ([dt = 10], [T_sim = 10000]) the loop diverges and the command logged at
    row 240 is nan. *)
Lemma command_can_be_nan :
  (val (throttle_min overflowing_system)
   <? val (throttle_max overflowing_system)) = true /\
  (exists self' u,
      pid_controller overflowing_system (py 1e306) = Ok self' u /\
      is_nan (val u) = true /\
      (val (throttle_min overflowing_system) <=? val u) = false /\
      (val u <=? val (throttle_max overflowing_system)) = false) /\
  (exists self' res u,
      simulate unstable_system None None = Ok self' res /\
      nth_error (r_throttle res) 240 = Some u /\
      is_nan u = true /\ (0 <=? u) = false /\ (u <=? 1) = false).
Proof.
  split; [reflexivity |]. split.
  - destruct (pid_controller overflowing_system (py 1e306))
      as [s' u | s' e] eqn:E; [| vm_compute in E; discriminate].
    exists s', u. split; [reflexivity |].
    vm_compute in E. injection E as _ <-.
    repeat split; reflexivity.
  - destruct (simulate unstable_system None None) as [s' res | s' e] eqn:E;
      [| vm_compute in E; discriminate].
    exists s', res, nan. split; [reflexivity |].
    vm_compute in E. injection E as _ <-.
    repeat split; reflexivity.
Qed.

Lemma pid_controller_command (self self' : System) (error u : num) :
  (val (throttle_min self) <? val (throttle_max self)) = true ->
  pid_controller self error = Ok self' u ->
  (is_nan (raw_command self (val error)) = true /\ is_nan (val u) = true) \/
  (is_nan (raw_command self (val error)) = false /\
   (val (throttle_min self) <=? val u) = true /\
   (val u <=? val (throttle_max self)) = true).
Proof.
  intros Hb H. apply pid_controller_inv_b64 in H as (Hu & _ & _).
  destruct (is_nan (raw_command self (val error))) eqn:Hraw.
  - left. split; [reflexivity |]. rewrite Hu, clip_nan; assumption.
  - right. split; [reflexivity |]. rewrite Hu.
    apply clip_within; assumption.
Qed.

(** C1, amended.  With [throttle_min < throttle_max], the command returned
    by [pid_controller] is nan when the raw command is nan and lies in
    [[throttle_min, throttle_max]] otherwise; a call that does not return
    raised [ZeroDivisionError] on a Python [dt] equal to zero; and every
    entry of the throttle array of a simulation result is nan or lies in
    that interval, one entry per grid point. *)
Theorem command_within_or_nan (self : System) :
  (val (throttle_min self) <? val (throttle_max self)) = true ->
  (forall (error : num) (self' : System) (u : num),
      pid_controller self error = Ok self' u ->
      (is_nan (raw_command self (val error)) = true /\
       is_nan (val u) = true) \/
      (is_nan (raw_command self (val error)) = false /\
       (val (throttle_min self) <=? val u) = true /\
       (val u <=? val (throttle_max self)) = true)) /\
  (forall (error : num) (self' : System) (e : exn),
      pid_controller self error = Raise self' e ->
      e = ZeroDivisionError /\ (val (dt self) =? 0) = true /\
      is_np (dt self) = false) /\
  (forall ref ds self' res,
      simulate self ref ds = Ok self' res ->
      Forall (nan_or_within (val (throttle_min self))
                            (val (throttle_max self)))
             (r_throttle res) /\
      length (r_throttle res) = length (r_time res)).
Proof.
  intro Hb. split; [| split].
  - intros error self' u H. exact (pid_controller_command _ _ _ _ Hb H).
  - intros error self' e H. exact (pid_controller_raises_b64 _ _ _ _ H).
  - intros ref ds self' res H.
    apply simulate_ok_inv_b64 in H as (time & rows & _ & Hrun & ->).
    cbn [result_of_rows r_throttle r_time]. split.
    + apply Forall_map.
      refine (proj2 (run_rows_forall (same_params self)
                       (fun r => nan_or_within (val (throttle_min self))
                                               (val (throttle_max self))
                                               (row_throttle r))
                       _ ds _ time (reset_states self) self' rows _ Hrun)).
      * intros s s1 t r P Hbody.
        apply simulate_body_inv_b64 in Hbody
          as (s0 & u & error & _ & Hpid & _ & Hthr & _ & P1 & _).
        split; [eapply same_params_trans_b64; eassumption |].
        destruct P as (_ & _ & _ & _ & _ & _ & _ & _ & Emax & Emin & _).
        rewrite Emax, Emin in Hb |- *. rewrite Hthr.
        destruct (pid_controller_command _ _ _ _ Hb Hpid)
          as [[_ Hn] | (_ & H1 & H2)]; [left | right; split]; assumption.
      * params_done_b64.
    + rewrite length_map. eapply run_rows_length_b64. exact Hrun.
Qed.

Lemma command_within_or_nan_witness :
  (exists self' u,
      pid_controller overflowing_system (py 1e306) = Ok self' u /\
      is_nan (val u) = true) /\
  (exists self' res,
      simulate unstable_system None None = Ok self' res /\
      Forall (nan_or_within 0 1) (r_throttle res)).
Proof.
  pose proof (command_within_or_nan overflowing_system eq_refl)
    as (Hcall & _ & _).
  pose proof (command_within_or_nan unstable_system eq_refl)
    as (_ & _ & Hrun).
  split.
  - destruct (pid_controller overflowing_system (py 1e306))
      as [s' u | s' e] eqn:E; [| vm_compute in E; discriminate].
    exists s', u. split; [reflexivity |].
    destruct (Hcall _ _ _ E) as [[_ H] | (H & _)]; [exact H |].
    vm_compute in H. discriminate.
  - destruct (simulate unstable_system None None) as [s' res | s' e] eqn:E;
      [| vm_compute in E; discriminate].
    exists s', res. split; [reflexivity |].
    exact (proj1 (Hrun None None s' res E)).
Defined.

(** ** C2: anti-windup *)









(** ** C4: the time grid and the number of records *)

Lemma pos_nonzero (x : float) : (0 <? x) = true -> (x =? 0) = false.
Proof.
  rewrite FloatAxioms.ltb_spec, FloatAxioms.eqb_spec. unfold SFltb, SFeqb.
  change (Prim2SF 0) with (S754_zero false).
  destruct (Prim2SF x) as [[] | [] | | [] ? ?]; cbn; congruence.
Qed.

Lemma np_arange_of_length (start stop step : num) (n : nat) :
  arange_length start stop step = inr n ->
  np_arange start stop step = inr (map (arange_item start step) (seq 0 n)).
Proof. intro H. unfold np_arange. rewrite H. reflexivity. Qed.

Lemma np_arange_raises (start stop step : num) (e : exn) :
  arange_length start stop step = inl e ->
  np_arange start stop step = inl e.
Proof. intro H. unfold np_arange. rewrite H. reflexivity. Qed.

(** What the length is: the ceiling of the binary64 quotient, or the
    underflow case. *)
Lemma arange_length_inv (stop step : num) (n : nat) :
  arange_length (py 0) stop step = inr n ->
  let q := (val stop - 0) / val step in
  ((q =? 0) = true /\ ((val stop - 0) =? 0) = false /\
   n = (if get_sign q then 0%nat else 1%nat)) \/
  (exists c : Z, ceil_Z q = Some c /\ n = Z.to_nat c).
Proof.
  intros H q. unfold arange_length in H.
  destruct (num_div (num_sub stop (py 0)) step) as [qn |] eqn:Hq;
    [| discriminate].
  apply num_div_inv in Hq. cbn [val num_sub py] in Hq, H.
  fold q in Hq. rewrite Hq in H.
  destruct ((q =? 0) && negb ((val stop - 0) =? 0)) eqn:Hu.
  - left. apply andb_true_iff in Hu as [H1 H2].
    apply negb_true_iff in H2. injection H as <-. auto.
  - right. destruct (ceil_Z q) as [c |]; [| discriminate].
    destruct (_ || _); [discriminate |].
    injection H as <-. eauto.
Qed.

Lemma time_grid_nth (start step : num) (n i : nat) :
  (i < n)%nat ->
  nth_error (map (arange_item start step) (seq 0 n)) i
  = Some (arange_item start step i).
Proof.
  intro Hi. rewrite nth_error_map, nth_error_seq.
  destruct (Nat.ltb_spec i n); [reflexivity | lia].
Qed.

(** The run over a grid that could be built. *)
Lemma simulate_on_grid_b64 (self : System) (ref : option reference)
    (ds : option (list (num -> num))) (n : nat) :
  arange_length (py 0) (T_sim self) (dt self) = inr n ->
  (val (dt self) =? 0) = false ->
  let time := map (arange_item (py 0) (dt self)) (seq 0 n) in
  exists self' rows,
    run_rows (reset_states self) (reference_or_default self ref) ds time
    = Ok self' rows /\
    length rows = n /\
    simulate self ref ds = Ok self' (result_of_rows time rows).
Proof.
  intros Hn Hdt time.
  destruct (run_rows_returns_b64 (reference_or_default self ref) ds time
              (reset_states self) Hdt) as (s' & rows & Hrun).
  exists s', rows. split; [exact Hrun |]. split.
  - rewrite (run_rows_length_b64 _ _ _ _ _ _ Hrun). unfold time.
    rewrite length_map, length_seq. reflexivity.
  - rewrite simulate_rows_b64, (np_arange_of_length _ _ _ _ Hn).
    fold time. rewrite Hrun. reflexivity.
Qed.

(** C4, amended.  With [dt > 0], whenever [np.arange] can build the grid the
    run returns six arrays of exactly [N] entries, where [N] is the ceiling of
    the quotient [(T_sim - 0) / dt] as binary64 computes it (one when a
    quotient of a non-zero duration underflows to zero): not its floor, and
    not the ceiling of the exact quotient.  The time array holds the grid as
    NumPy fills it, [t_0 = 0], [t_1 = 0 + dt], [t_i = 0 + i*((0 + dt) - 0)],
    and the other columns are the rows obtained by running the loop body
    over that grid from first to last point, starting from the reset
    object. *)
Theorem record_count_is_rounded_ceiling (self : System)
    (ref : option reference) (ds : option (list (num -> num))) (N : nat) :
  (0 <? val (dt self)) = true ->
  arange_length (py 0) (T_sim self) (dt self) = inr N ->
  (let q := (val (T_sim self) - 0) / val (dt self) in
   ((q =? 0) = true /\ ((val (T_sim self) - 0) =? 0) = false /\
    N = (if get_sign q then 0%nat else 1%nat)) \/
   (exists c : Z, ceil_Z q = Some c /\ N = Z.to_nat c)) /\
  exists self' res,
    simulate self ref ds = Ok self' res /\
    (length (r_time res) = N /\ length (r_speed res) = N /\
     length (r_throttle res) = N /\ length (r_error res) = N /\
     length (r_force res) = N /\ length (r_reference res) = N) /\
    (forall i : nat, (i < N)%nat ->
       nth_error (r_time res) i = Some (arange_item (py 0) (dt self) i)) /\
    (exists rows,
       run_rows (reset_states self) (reference_or_default self ref) ds
                (r_time res) = Ok self' rows /\
       res = result_of_rows (r_time res) rows).
Proof.
  intros Hdt HN. split; [exact (arange_length_inv _ _ _ HN) |].
  destruct (simulate_on_grid_b64 self ref ds N HN (pos_nonzero _ Hdt))
    as (s' & rows & Hrun & Hlen & Hsim).
  eexists. eexists. split; [exact Hsim |].
  cbn [result_of_rows r_time r_speed r_throttle r_error r_force r_reference].
  rewrite !length_map, length_seq, Hlen.
  split; [repeat split |]. split.
  - intros i Hi. apply time_grid_nth. exact Hi.
  - exists rows. split; [exact Hrun | reflexivity].
Qed.

Lemma record_count_is_rounded_ceiling_witness :
  ceil_Z ((0.07 - 0) / 0.01) = Some 8%Z /\
  (exists self' res,
      simulate seven_hundredths_system None None = Ok self' res /\
      length (r_time res) = 8%nat /\
      length (r_speed res) = 8%nat /\
      nth_error (r_time res) 7 = Some 0.07) /\
  (exists self' res,
      simulate coarse_system None None = Ok self' res /\
      length (r_time res) = 4%nat /\
      length (r_speed res) = 4%nat).
Proof.
  split; [reflexivity |]. split.
  - destruct (record_count_is_rounded_ceiling seven_hundredths_system
                None None 8 eq_refl eq_refl)
      as (_ & s' & res & Hsim & (H1 & H2 & _) & Hnth & _).
    exists s', res. split; [exact Hsim |]. split; [exact H1 |].
    split; [exact H2 |]. exact (Hnth 7%nat ltac:(lia)).
  - destruct (record_count_is_rounded_ceiling coarse_system
                None None 4 eq_refl eq_refl)
      as (_ & s' & res & Hsim & (H1 & H2 & _) & _).
    exists s', res. split; [exact Hsim |]. split; [exact H1 | exact H2].
Defined.

(** ** C5: configurations that break the documented invariants *)

Lemma neg_quotient (q : float) :
  (q <? 0) = true ->
  (q =? 0) = false /\
  (ceil_Z q = None \/ exists c : Z, ceil_Z q = Some c /\ (c <= 0)%Z).
Proof.
  intro H. split.
  - apply ltb_not_eqb. exact H.
  - rewrite FloatAxioms.ltb_spec in H. unfold SFltb, ceil_Z in *.
    change (Prim2SF 0) with (S754_zero false) in H.
    destruct (Prim2SF q) as [[] | [] | | [] mant e]; cbn in H;
      try discriminate; try (left; reflexivity).
    right. eexists. split; [reflexivity |].
    cbn [cond_Zopp]. destruct (0 <=? e)%Z eqn:He.
    + pose proof (Z.pow_nonneg 2 e). nia.
    + rewrite Z.opp_involutive.
      assert (0 <= Z.pos mant / 2 ^ (- e))%Z
        by (apply Z.div_pos; [lia | apply Z.pow_pos_nonneg; lia]).
      lia.
Qed.

Lemma arange_length_negative (stop step : num) :
  (val step =? 0) = false ->
  ((val stop - 0) / val step <? 0) = true ->
  arange_length (py 0) stop step = inl ValueError \/
  arange_length (py 0) stop step = inr 0%nat.
Proof.
  intros Hstep Hq. unfold arange_length.
  rewrite num_div_nonzero by exact Hstep. cbn [val num_sub py].
  destruct (neg_quotient _ Hq) as [H0 Hc]. rewrite H0. cbn [andb].
  destruct Hc as [-> | (c & -> & Hc)]; [left; reflexivity |].
  destruct (_ || _); [left; reflexivity |].
  right. f_equal. lia.
Qed.

(** In binary64 too, a configuration with a negative mass and
    [throttle_min > throttle_max] is simulated without any error, for three
    steps.  A zero mass with a zero engine time constant is not an error
    either: the run returns speeds that are infinite or nan. *)
Lemma invalid_config_runs :
  (val (m invalid_system) <=? 0) = true /\
  (val (throttle_max invalid_system) <=? val (throttle_min invalid_system))
  = true /\
  (exists self' res,
      simulate invalid_system None None = Ok self' res /\
      length (r_speed res) = 3%nat) /\
  (exists self' res,
      simulate massless_system None None = Ok self' res /\
      length (r_speed res) = 3%nat /\
      forallb (fun v => negb (is_finite v)) (r_speed res) = true).
Proof.
  split; [reflexivity |]. split; [reflexivity |]. split.
  - destruct (simulate invalid_system None None) as [s' res | s' e] eqn:E;
      [| vm_compute in E; discriminate].
    exists s', res. split; [reflexivity |].
    vm_compute in E. injection E as _ <-. reflexivity.
  - destruct (simulate massless_system None None) as [s' res | s' e] eqn:E;
      [| vm_compute in E; discriminate].
    exists s', res. split; [reflexivity |].
    vm_compute in E. injection E as _ <-. split; reflexivity.
Qed.

(** C5, amended.  [simulate] validates nothing and there is no
    configuration error.  Only [np.arange] can stop a run before it starts:
    it raises [ZeroDivisionError] for a zero [dt] (Python numbers) and
    [ValueError] when the quotient is nan or too large, in both cases ahead
    of [reset_states], so no step runs and the object is untouched.
    Otherwise, for a non-zero [dt] and whatever the values of [m],
    [tau_engine], the command bounds and [T_sim], the run returns a result
    with one row per grid point; a zero [m] or [tau_engine] gives rows of
    inf or nan, not an error.  When the quotient is negative, as for
    [T_sim < 0 < dt], the grid is empty: no step runs, the state attributes
    are reset and an empty result is returned. *)
Theorem simulate_validates_nothing (self : System) (ref : option reference)
    (ds : option (list (num -> num))) :
  (is_np (T_sim self) = false -> is_np (dt self) = false ->
   (val (dt self) =? 0) = true ->
   simulate self ref ds = Raise self ZeroDivisionError) /\
  (forall e : exn,
      arange_length (py 0) (T_sim self) (dt self) = inl e ->
      simulate self ref ds = Raise self e) /\
  (forall n : nat,
      arange_length (py 0) (T_sim self) (dt self) = inr n ->
      (val (dt self) =? 0) = false ->
      exists self' res,
        simulate self ref ds = Ok self' res /\
        length (r_speed res) = n /\ length (r_time res) = n) /\
  ((val (dt self) =? 0) = false ->
   ((val (T_sim self) - 0) / val (dt self) <? 0) = true ->
   simulate self ref ds = Raise self ValueError \/
   simulate self ref ds = Ok (reset_states self) (result_of_rows [] [])).
Proof.
  assert (Hraise : forall e,
             arange_length (py 0) (T_sim self) (dt self) = inl e ->
             simulate self ref ds = Raise self e).
  { intros e He. rewrite simulate_rows_b64, (np_arange_raises _ _ _ _ He).
    reflexivity. }
  split; [| split; [exact Hraise | split]].
  - intros HT Hdt H0. apply Hraise.
    unfold arange_length, num_div. cbn [is_np num_sub py val].
    rewrite HT, Hdt, H0. reflexivity.
  - intros n Hn Hdt.
    destruct (simulate_on_grid_b64 self ref ds n Hn Hdt)
      as (s' & rows & _ & Hlen & Hsim).
    eexists. eexists. split; [exact Hsim |].
    cbn [result_of_rows r_speed r_time].
    rewrite !length_map, length_seq, Hlen. split; reflexivity.
  - intros Hdt Hq.
    destruct (arange_length_negative _ _ Hdt Hq) as [He | Hn].
    + left. apply Hraise. exact He.
    + right. rewrite simulate_rows_b64, (np_arange_of_length _ _ _ _ Hn).
      reflexivity.
Qed.

Lemma simulate_validates_nothing_witness :
  simulate zero_step_system None None
  = Raise zero_step_system ZeroDivisionError /\
  simulate nan_duration_system None None
  = Raise nan_duration_system ValueError /\
  (exists self' res,
      simulate massless_system None None = Ok self' res /\
      length (r_speed res) = 3%nat /\ length (r_time res) = 3%nat) /\
  (simulate negative_duration_system None None
   = Raise negative_duration_system ValueError \/
   simulate negative_duration_system None None
   = Ok (reset_states negative_duration_system) (result_of_rows [] [])).
Proof.
  split; [| split; [| split]].
  - exact (proj1 (simulate_validates_nothing zero_step_system None None)
             eq_refl eq_refl eq_refl).
  - exact (proj1 (proj2 (simulate_validates_nothing nan_duration_system
                           None None)) ValueError eq_refl).
  - exact (proj1 (proj2 (proj2 (simulate_validates_nothing massless_system
                                  None None))) 3%nat eq_refl eq_refl).
  - exact (proj2 (proj2 (proj2 (simulate_validates_nothing
                                  negative_duration_system None None)))
             eq_refl eq_refl).
Defined.

(** ** [performance_analysis]: the rise time is never found *)

Lemma np_where_ge_none (threshold : float) (speed : list float) :
  forall i : nat,
    forallb (fun v => negb (threshold <=? v)) speed = true ->
    np_where_ge speed threshold i = [].
Proof.
  induction speed as [| v rest IH]; intros i H; cbn in *; [reflexivity |].
  apply andb_true_iff in H as [Hv Hrest].
  apply negb_true_iff in Hv. rewrite Hv. apply IH. exact Hrest.
Qed.

Lemma never_rises_conservative :
  never_rises (mkTuning Conservative 400 20 30) = true.
Proof. vm_compute. reflexivity. Qed.

Lemma never_rises_balanced :
  never_rises (mkTuning Balanced 800 40 40) = true.
Proof. vm_compute. reflexivity. Qed.

Lemma never_rises_aggressive :
  never_rises (mkTuning Aggressive 1200 60 80) = true.
Proof. vm_compute. reflexivity. Qed.

Lemma default_grid_length (tuning : Tuning) :
  arange_length (py 0) (T_sim (tuned tuning)) (dt (tuned tuning))
  = inr (Z.to_nat 10000).
Proof. destruct tuning. vm_compute. reflexivity. Qed.

Lemma forallb_map_Forall {A B : Type} (f : A -> B) (p : A -> bool)
    (q : B -> bool) (l : list A) :
  (forall a, p a = true -> q (f a) = true) ->
  forallb p l = true -> Forall (fun y => q y = true) (map f l).
Proof.
  intros Hpq H. rewrite forallb_forall in H.
  apply Forall_forall. intros y Hy.
  apply in_map_iff in Hy as (a & <- & Ha). apply Hpq, H, Ha.
Qed.

Lemma row_saturated_inv (threshold : float) (r : Row) :
  row_saturated threshold r = true ->
  (row_throttle r =? 1) = true /\ (row_speed r <? 10) = true /\
  (threshold <=? row_speed r) = false.
Proof.
  unfold row_saturated. intro H.
  apply andb_true_iff in H as [H Hthr].
  apply andb_true_iff in H as [Hu Hv].
  apply negb_true_iff in Hthr. auto.
Qed.

(** What a run that never rises gives to the analysis. *)
Lemma never_rises_inv (tuning : Tuning) :
  never_rises tuning = true ->
  exists cruise results,
    simulate (tuned tuning) None None = Ok cruise results /\
    length (r_speed results) = Z.to_nat 10000 /\
    Forall (fun u => (u =? 1) = true) (r_throttle results) /\
    Forall (fun v => (v <? 10) = true) (r_speed results) /\
    (val (error_integral cruise) =? 0) = true /\
    rise_time results cruise = inr None /\
    analyse tuning = Raise cruise TypeError.
Proof.
  unfold never_rises. cbv zeta.
  set (time := map _ (seq 0 (Z.to_nat 10000))).
  destruct (run_rows _ _ None time) as [cruise rows | ? ?] eqn:Hrun;
    [| discriminate].
  intro H. apply andb_true_iff in H as [H Hlen].
  apply andb_true_iff in H as [Hrows Hint].
  apply Z.eqb_eq in Hlen.
  assert (Hsim : simulate (tuned tuning) None None
                 = Ok cruise (result_of_rows time rows)).
  { rewrite simulate_rows_b64,
      (np_arange_of_length _ _ _ _ (default_grid_length tuning)).
    fold time. cbn [reference_or_default]. rewrite Hrun. reflexivity. }
  assert (Hrise : rise_time (result_of_rows time rows) cruise = inr None).
  { unfold rise_time. cbn [result_of_rows r_speed].
    rewrite np_where_ge_none; [reflexivity |].
    rewrite forallb_forall in *. intros v Hv.
    apply in_map_iff in Hv as (r & <- & Hr).
    apply negb_true_iff.
    exact (proj2 (proj2 (row_saturated_inv _ _ (Hrows r Hr)))). }
  exists cruise, (result_of_rows time rows).
  split; [exact Hsim |]. split.
  { cbn [result_of_rows r_speed]. rewrite length_map. lia. }
  split.
  { cbn [result_of_rows r_throttle].
    apply (forallb_map_Forall row_throttle _ (fun u => u =? 1) rows
             (fun r Hr => proj1 (row_saturated_inv _ r Hr)) Hrows). }
  split.
  { cbn [result_of_rows r_speed].
    apply (forallb_map_Forall row_speed _ (fun v => v <? 10) rows
             (fun r Hr => proj1 (proj2 (row_saturated_inv _ r Hr))) Hrows). }
  split; [exact Hint |]. split; [exact Hrise |].
  unfold analyse. rewrite Hsim. cbn [bind]. rewrite Hrise.
  unfold overshoot. cbn [result_of_rows r_speed].
  destruct rows as [| r rows']; [cbn in Hlen; lia |].
  reflexivity.
Qed.

(** X4.  [performance_analysis()] never returns its results.  For each of
    its three tunings ([Kp/Ki/Kd] = 400/20/30, 800/40/40, 1200/60/80; the
    second is the default configuration) the binary64 run over the default
    grid of 10000 points returns with the command at [throttle_max = 1.0] in
    every row and every speed below 10 m/s, hence below the rise threshold
    [0.9 * v_desired]; the integral is zero at the end.  So [np.where] finds
    no index, [rise_time] is [None], and the first [print] of a metric,
    which formats it with [:.1f], raises [TypeError]: the function stops in
    its first iteration, and would in any order of the tunings. *)
Theorem performance_analysis_raises :
  performance_analysis = inl TypeError /\
  Forall (fun tuning =>
            exists cruise results,
              simulate (tuned tuning) None None = Ok cruise results /\
              length (r_speed results) = Z.to_nat 10000 /\
              Forall (fun u => (u =? 1) = true) (r_throttle results) /\
              Forall (fun v => (v <? 10) = true) (r_speed results) /\
              (val (error_integral cruise) =? 0) = true /\
              rise_time results cruise = inr None /\
              analyse tuning = Raise cruise TypeError)
         tuning_sets.
Proof.
  split.
  - destruct (never_rises_inv _ never_rises_conservative)
      as (cruise & results & _ & _ & _ & _ & _ & _ & Han).
    unfold performance_analysis, tuning_sets. cbn [analyse_all].
    rewrite Han. reflexivity.
  - unfold tuning_sets. repeat constructor.
    + exact (never_rises_inv _ never_rises_conservative).
    + exact (never_rises_inv _ never_rises_balanced).
    + exact (never_rises_inv _ never_rises_aggressive).
Qed.

End B64Facts.
